(** * OPTIC-SHIELD dashboard: detection ingestion, listing and statistics

    A shallow embedding of the four API route handlers of the dashboard

    - [api/devices/detections/route.ts]  (single detection POST, audit GET),
    - the batch ingestion route            (batch POST),
    - [api/detections/route.ts]          (detection listing GET),
    - the statistics route                 (stats GET),

    followed by the properties of the ingestion and aggregation core.

    Conventions of the embedding.

    - A JavaScript number that the handlers only compare, add or count is a
      [Z]; a number that is only copied (confidence, coordinates) is a [Q].
    - An optional property is an [option]; [truthy] is JavaScript truthiness
      on the values that the handlers test with [!x], [x || y] and [x ? a : b].
    - A date string is represented by what [new Date(str).getTime()] gives:
      [Some ms], or [None] for a string that does not parse (NaN).
    - The clock ([Date.now()], [new Date()]) is read as one value [now] per
      request, except in the loop of the batch route, which reads it afresh
      for every detection it builds: there the readings are a function
      [clock] of the number of detections built so far.  Console output is
      not part of the state.
    - The two module-level maps and the broadcast channel are fields of
      [State]; a handler is a function from the state to the new state and
      the response. *)

From Stdlib Require Import ZArith QArith Ascii String Sorting.Sorted.
From stdpp Require Import gmap strings list pretty.

Open Scope Z_scope.

(** ** JavaScript helpers *)

Definition number := Q.

(** [!!s] for a string-or-undefined value: the value itself when it is a
    non-empty string. *)
Definition truthy (v : option string) : option string :=
  match v with
  | Some s => if String.eqb s EmptyString then None else Some s
  | None => None
  end.

(** [x || y] on a number-or-undefined [x]: [0] and [undefined] are falsy. *)
Definition or_number (x : option Z) (y : Z) : Z :=
  match x with
  | Some v => if v =? 0 then y else v
  | None => y
  end.

(** The range of time values of a [Date]: 8.64e15 ms either side of the epoch. *)
Definition MAX_TIME : Z := 8640000000000000.

(** [new Date(v)] for a number-or-NaN [v]: the time value, or an invalid date. *)
Definition Date (v : option Z) : option Z :=
  match v with
  | Some ms => if Z.abs ms <=? MAX_TIME then Some ms else None
  | None => None
  end.

(** [date.toISOString()]: the string (represented by its instant), or [None]
    when the date is invalid and the call throws a RangeError. *)
Definition toISOString (d : option Z) : option (option Z) :=
  match d with
  | Some ms => Some (Some ms)
  | None => None
  end.

(** [new Date(str).getTime()] on a stored date string. *)
Definition getTime (str : option Z) : option Z := str.

(** Comparisons with a possibly-NaN left operand: NaN compares false. *)
Definition gt_num (t : option Z) (x : Z) : bool :=
  match t with Some v => x <? v | None => false end.
Definition ge_num (t : option Z) (x : Z) : bool :=
  match t with Some v => x <=? v | None => false end.
Definition lt_num (t : option Z) (x : Z) : bool :=
  match t with Some v => v <? x | None => false end.

(** [array.splice(n)] guarded by [array.length > n], as both stores do. *)
Definition truncate {A} (n : nat) (l : list A) : list A :=
  if (n <? length l)%nat then take n l else l.

(** The result of [parseInt] on a query parameter. *)
Inductive ParsedInt := PNaN | PInt (z : Z).

(** [array.slice(0, end)]: a negative [end] counts from the back of the
    array, NaN is treated as 0. *)
Definition slice0 {A} (l : list A) (e : ParsedInt) : list A :=
  match e with
  | PNaN => []
  | PInt z =>
      let len := Z.of_nat (length l) in
      let final := if z <? 0 then Z.max (len + z) 0 else Z.min z len in
      take (Z.to_nat final) l
  end.

(** [String.prototype.toLowerCase] on the ASCII letters.  A character outside
    ASCII never lowercases to one of the letters used by the allow-list, so
    membership in the allow-list is decided by the ASCII part alone. *)
Definition lower_ascii (c : ascii) : ascii :=
  let n := N_of_ascii c in
  if ((65 <=? n) && (n <=? 90))%N then ascii_of_N (n + 32) else c.

Fixpoint toLowerCase (s : string) : string :=
  match s with
  | EmptyString => EmptyString
  | String c r => String (lower_ascii c) (toLowerCase r)
  end.

(** ** The species allow-list (the same constant and predicate are repeated
    in every route file) *)

Definition WILD_CAT_SPECIES : list string :=
  ["tiger"; "leopard"; "jaguar"; "lion"; "cheetah";
   "snow leopard"; "clouded leopard"; "puma"; "lynx"].

Definition isWildCat (className : string) : bool :=
  bool_decide (toLowerCase className ∈ WILD_CAT_SPECIES).

(** ** Data model ([@/types])

    Modelled from the spec: the type declarations of [@/types] are not among
    the sources.  The records have the fields that the routes read and write
    and that the data model of the specification lists. *)

Inductive DeviceStatus := online | offline | error.

Module DeviceStats.
Record t := mk { detectionCount : option Z }.
End DeviceStats.

Module Device.
Record t := mk {
  id : string;
  name : string;
  status : DeviceStatus;
  lastSeen : option Z;
  stats : DeviceStats.t
}.
End Device.

Module Location.
Record t := mk { name : string; latitude : number; longitude : number }.
End Location.

(** [metadata] of a payload (snake case in the source) and of a stored
    detection (camel case); [device_info] is an opaque JSON value, kept as
    its text. *)
Module Metadata.
Record t := mk {
  processingTimeMs : option number;
  priority : option string;
  frameTimestamp : option number;
  deviceInfo : option string;
  uploadTimestamp : option number
}.
End Metadata.

Module Detection.
Record t := mk {
  id : Z;
  eventId : option string;
  deviceId : string;
  deviceName : string;
  cameraId : option string;
  timestamp : option Z;
  className : string;
  confidence : number;
  bbox : list number;
  imageUrl : option string;
  location : option Location.t;
  metadata : option Metadata.t
}.
End Detection.

(** The [details] object that the single-detection route logs. *)
Module Details.
Record t := mk {
  className : string;
  confidence : number;
  hasImage : bool;
  cameraId : option string;
  location : option string;
  priority : option string
}.
End Details.

Module AuditEntry.
Record t := mk {
  eventId : string;
  deviceId : string;
  timestamp : option Z;
  action : string;
  details : Details.t
}.
End AuditEntry.

Module HourBucket.
Record t := mk { hour : string; count : Z }.
End HourBucket.

Module DashboardStats.
Record t := mk {
  totalDevices : Z;
  onlineDevices : Z;
  totalDetections24h : Z;
  totalDetectionsWeek : Z;
  classDistribution : list (string * Z);
  hourlyDetections : list HourBucket.t
}.
End DashboardStats.

(** ** Server state and responses *)

(** Modelled from the spec: [getDeviceStore], [getDetectionStore] and
    [broadcastDeviceUpdate] live in [@/lib/auth], which is not among the
    sources.  The two stores are the module-level maps shared by all routes
    (device id to device record; the key ['all'] to the detection array), and
    a broadcast pushes the device record to the subscribers, recorded here as
    a trace.  [detectionEventLog] is the array of the single-detection
    route. *)
Record State := mkState {
  deviceStore : gmap string Device.t;
  detectionStore : gmap string (list Detection.t);
  detectionEventLog : list AuditEntry.t;
  broadcasts : list Device.t
}.

Definition init : State := mkState ∅ ∅ [] [].

Inductive Body :=
  | Failure (error : string)
  | Recorded (message : string) (event_id : string) (detection_id : Z)
  | BatchRecorded (message : string) (count : Z)
  | DetectionList (detections : list Detection.t) (count : Z)
  | LogList (logs : list AuditEntry.t) (count : Z)
  | StatsBody (stats : DashboardStats.t).

(** The [success] property of a JSON body (the stats object has none). *)
Definition success (b : Body) : option bool :=
  match b with
  | Failure _ => Some false
  | StatsBody _ => None
  | _ => Some true
  end.

Record Response := mkResponse { status : Z; body : Body }.

Definition json (b : Body) : Response := mkResponse 200 b.
Definition json_status (b : Body) (st : Z) : Response := mkResponse st b.

(** The [detections], [logs] and [count] properties of a JSON body. *)
Definition detections_of (r : Response) : list Detection.t :=
  match body r with DetectionList ds _ => ds | _ => [] end.

Definition logs_of (r : Response) : list AuditEntry.t :=
  match body r with LogList ls _ => ls | _ => [] end.

Definition count_of (r : Response) : option Z :=
  match body r with
  | BatchRecorded _ c | DetectionList _ c | LogList _ c => Some c
  | _ => None
  end.

(** [detectionStore.get('all') || []] *)
Definition all_detections (s : State) : list Detection.t :=
  default [] (detectionStore s !! "all").

(** [device?.name || device_id], the display name both ingestion routes use. *)
Definition displayName (device : option Device.t) (device_id : string) : string :=
  match device with
  | Some d => if String.eqb (Device.name d) EmptyString then device_id else Device.name d
  | None => device_id
  end.

(** ** [api/devices/detections/route.ts] *)

Module DeviceDetections.

Record DetectionPayload := mkPayload {
  event_id : option string;
  detection_id : option Z;
  device_id : option string;
  camera_id : option string;
  timestamp : option Z;
  class_name : option string;
  class_id : option Z;
  confidence : number;
  bbox : option (list number);
  image_base64 : option string;
  location : option Location.t;
  metadata : option Metadata.t
}.

(** [authorized] is [verifyRequest(request).valid]. *)
Record Request := mkRequest { authorized : bool; payload : DetectionPayload }.

Definition logDetectionEvent (now : Z) (eventId deviceId action : string)
    (details : Details.t) (log : list AuditEntry.t) : list AuditEntry.t :=
  truncate 1000 (AuditEntry.mk eventId deviceId (Some now) action details :: log).

Definition mkDetection (now : Z) (p : DetectionPayload)
    (device_id class_name deviceName eventId : string) (iso : option Z)
    : Detection.t :=
  {| Detection.id := or_number (detection_id p) now;
     Detection.eventId := Some eventId;
     Detection.deviceId := device_id;
     Detection.deviceName := deviceName;
     Detection.cameraId := camera_id p;
     Detection.timestamp := iso;
     Detection.className := class_name;
     Detection.confidence := confidence p;
     Detection.bbox := default [] (bbox p);
     Detection.imageUrl :=
       match truthy (image_base64 p) with
       | Some img => Some ("data:image/jpeg;base64," +:+ img)
       | None => None
       end;
     Detection.location :=
       match location p with
       | Some l => Some (Location.mk (Location.name l) (Location.latitude l)
                                     (Location.longitude l))
       | None => None
       end;
     Detection.metadata :=
       match metadata p with
       | Some m => Some (Metadata.mk (Metadata.processingTimeMs m)
                           (Metadata.priority m) (Metadata.frameTimestamp m)
                           (Metadata.deviceInfo m) (Metadata.uploadTimestamp m))
       | None => None
       end |}.

(** The device record after the update of lines 131-133. *)
Definition touch (now : Z) (device : Device.t) : Device.t :=
  {| Device.id := Device.id device;
     Device.name := Device.name device;
     Device.status := online;
     Device.lastSeen := Some now;
     Device.stats :=
       DeviceStats.mk
         (Some (or_number (DeviceStats.detectionCount (Device.stats device)) 0 + 1)) |}.

Definition POST (now : Z) (req : Request) (s : State) : State * Response :=
  if negb (authorized req) then
    (s, json_status (Failure "Unauthorized") 401)
  else
    let p := payload req in
    match truthy (device_id p), truthy (class_name p) with
    | Some device_id, Some class_name =>
        if negb (isWildCat class_name) then
          (s, json_status (Failure "Only wild cat species are allowed") 400)
        else
          let device := deviceStore s !! device_id in
          let deviceName := displayName device device_id in
          let eventId :=
            match truthy (event_id p) with
            | Some e => e
            | None => "det_" +:+ device_id +:+ "_" +:+ pretty now
            end in
          match toISOString (Date ((λ t, t * 1000) <$> timestamp p)) with
          | None =>
              (* RangeError, caught by the handler *)
              (s, json_status (Failure "Failed to record detection") 500)
          | Some iso =>
              let detection :=
                mkDetection now p device_id class_name deviceName eventId iso in
              let detections := truncate 1000 (detection :: all_detections s) in
              let store := <["all" := detections]> (detectionStore s) in
              let '(devices, sent) :=
                match device with
                | Some d =>
                    let d' := touch now d in
                    (<[device_id := d']> (deviceStore s), broadcasts s ++ [d'])
                | None => (deviceStore s, broadcasts s)
                end in
              let log :=
                logDetectionEvent now eventId device_id "detection_received"
                  {| Details.className := class_name;
                     Details.confidence := confidence p;
                     Details.hasImage := bool_decide (is_Some (truthy (image_base64 p)));
                     Details.cameraId := camera_id p;
                     Details.location := Location.name <$> location p;
                     Details.priority := metadata p ≫= Metadata.priority |}
                  (detectionEventLog s) in
              (mkState devices store log sent,
               json (Recorded "Detection recorded" eventId (Detection.id detection)))
          end
    | _, _ => (s, json_status (Failure "Missing required fields") 400)
    end.

(** The audit GET; [deviceId] and [limit] are the query parameters
    ([None]: absent), [limit] already through [parseInt]. *)
Record Query := mkQuery { q_device_id : option string; q_limit : option ParsedInt }.

(** The log entries that match the query, before the cut to [limit]. *)
Definition matching (q : Query) (s : State) : list AuditEntry.t :=
  match truthy (q_device_id q) with
  | Some deviceId =>
      filter (λ log, AuditEntry.deviceId log = deviceId) (detectionEventLog s)
  | None => detectionEventLog s
  end.

Definition GET (q : Query) (s : State) : Response :=
  let limit := default (PInt 100) (q_limit q) in
  let logs := matching q s in
  json (LogList (slice0 logs limit) (Z.of_nat (length logs))).

End DeviceDetections.

(** ** The batch ingestion route *)

Module Batch.

(** One element of [detections]; [class_name] is [None] when the element
    has no such string, in which case [toLowerCase] raises a TypeError. *)
Record Item := mkItem {
  detection_id : option Z;
  timestamp : option Z;
  class_name : option string;
  confidence : number;
  bbox : option (list number);
  image_base64 : option string
}.

(** [detections] is [None] when the property is not an array. *)
Record Payload := mkPayload {
  device_id : option string;
  detections : option (list Item)
}.

Record Request := mkRequest { authorized : bool; payload : Payload }.

(** The object literal of lines 59-68; [now] is what [Date.now()] returns
    when this detection is built. *)
Definition mkDetection (now : Z) (device_id deviceName : string) (det : Item)
    (class_name : string) (iso : option Z) (addedCount : Z) : Detection.t :=
  {| Detection.id := or_number (detection_id det) (now + addedCount);
     Detection.eventId := None;
     Detection.deviceId := device_id;
     Detection.deviceName := deviceName;
     Detection.cameraId := None;
     Detection.timestamp := iso;
     Detection.className := class_name;
     Detection.confidence := confidence det;
     Detection.bbox := default [] (bbox det);
     Detection.imageUrl :=
       match truthy (image_base64 det) with
       | Some img => Some ("data:image/jpeg;base64," +:+ img)
       | None => None
       end;
     Detection.location := None;
     Detection.metadata := None |}.

(** The [for] loop over the incoming detections.  It either runs to the end
    or is left by an exception; in both cases the array it was unshifting
    into is returned.  [clock k] is what [Date.now()] returns when the loop
    builds a detection with [addedCount = k]; it is read at most once for
    each [k], since [addedCount] grows with every detection built. *)
Inductive Outcome :=
  | Done (storedDetections : list Detection.t) (addedCount rejectedCount : Z)
  | Thrown (storedDetections : list Detection.t).

Fixpoint loop (clock : Z → Z) (device_id deviceName : string) (incoming : list Item)
    (storedDetections : list Detection.t) (addedCount rejectedCount : Z)
    : Outcome :=
  match incoming with
  | [] => Done storedDetections addedCount rejectedCount
  | det :: rest =>
      match class_name det with
      | None => Thrown storedDetections
      | Some cn =>
          if negb (isWildCat cn) then
            loop clock device_id deviceName rest storedDetections
                 addedCount (rejectedCount + 1)
          else
            match toISOString (Date ((λ t, t * 1000) <$> timestamp det)) with
            | None => Thrown storedDetections
            | Some iso =>
                let detection :=
                  mkDetection (clock addedCount) device_id deviceName det cn iso
                              addedCount in
                loop clock device_id deviceName rest
                     (detection :: storedDetections) (addedCount + 1) rejectedCount
            end
      end
  end.

(** The device record after the update of lines 80-81: the counter and
    [lastSeen] are written, [status] is not. *)
Definition touch (now addedCount : Z) (device : Device.t) : Device.t :=
  {| Device.id := Device.id device;
     Device.name := Device.name device;
     Device.status := Device.status device;
     Device.lastSeen := Some now;
     Device.stats :=
       DeviceStats.mk
         (Some (or_number (DeviceStats.detectionCount (Device.stats device)) 0
                + addedCount)) |}.

Definition POST (clock : Z → Z) (now : Z) (req : Request) (s : State)
    : State * Response :=
  if negb (authorized req) then
    (s, json_status (Failure "Unauthorized") 401)
  else
    match truthy (device_id (payload req)), detections (payload req) with
    | Some device_id, Some incomingDetections =>
        let device := deviceStore s !! device_id in
        let deviceName := displayName device device_id in
        match loop clock device_id deviceName incomingDetections
                   (all_detections s) 0 0 with
        | Thrown stored =>
            (* The exception is caught; the unshifts already made are
               visible when the array is the one held by the map, and are
               lost when it was the fresh [[]]. *)
            let store :=
              match detectionStore s !! "all" with
              | Some _ => <["all" := stored]> (detectionStore s)
              | None => detectionStore s
              end in
            (mkState (deviceStore s) store (detectionEventLog s) (broadcasts s),
             json_status (Failure "Failed to record detections") 500)
        | Done stored addedCount rejectedCount =>
            let store := <["all" := truncate 1000 stored]> (detectionStore s) in
            let devices :=
              match device with
              | Some d => <[device_id := touch now addedCount d]> (deviceStore s)
              | None => deviceStore s
              end in
            (mkState devices store (detectionEventLog s) (broadcasts s),
             json (BatchRecorded (pretty addedCount +:+ " detections recorded")
                                 addedCount))
        end
    | _, _ => (s, json_status (Failure "Missing required fields") 400)
    end.

End Batch.

(** ** [api/detections/route.ts] *)

Module Detections.

Record Query := mkQuery { q_limit : option ParsedInt; q_device_id : option string }.

(** The detections that match the query, before the cut to [limit]. *)
Definition matching (q : Query) (s : State) : list Detection.t :=
  let detections :=
    filter (λ d, isWildCat (Detection.className d)) (all_detections s) in
  match truthy (q_device_id q) with
  | Some deviceId => filter (λ d, Detection.deviceId d = deviceId) detections
  | None => detections
  end.

Definition GET (q : Query) (s : State) : Response :=
  let limit := default (PInt 50) (q_limit q) in
  let detections := slice0 (matching q s) limit in
  json (DetectionList detections (Z.of_nat (length detections))).

End Detections.

(** ** The statistics route *)

Module Stats.

(** A plain object used as a string-keyed table: the keys are kept in the
    order of their first assignment.  (JavaScript lists keys that are array
    indices first; no class name that passes [isWildCat] is one.) *)
Fixpoint get (o : list (string * Z)) (k : string) : option Z :=
  match o with
  | [] => None
  | (k', v) :: r => if String.eqb k' k then Some v else get r k
  end.

Fixpoint set (o : list (string * Z)) (k : string) (v : Z) : list (string * Z) :=
  match o with
  | [] => [(k, v)]
  | (k', v') :: r => if String.eqb k' k then (k', v) :: r else (k', v') :: set r k v
  end.

(** The loop of lines 283-285. *)
Definition classDistribution (detections24h : list Detection.t) : list (string * Z) :=
  fold_left
    (λ o d, set o (Detection.className d)
                  (or_number (get o (Detection.className d)) 0 + 1))
    detections24h [].

(** [entries.sort(([, a], [, b]) => b - a)]: [Array.prototype.sort] is a
    stable sort, here by insertion; [x] precedes [y] unless the comparator
    is positive on them. *)
Fixpoint insert_entry (x : string * Z) (l : list (string * Z)) : list (string * Z) :=
  match l with
  | [] => [x]
  | y :: r => if 0 <? y.2 - x.2 then y :: insert_entry x r else x :: y :: r
  end.

Fixpoint sort_entries (l : list (string * Z)) : list (string * Z) :=
  match l with
  | [] => []
  | x :: r => insert_entry x (sort_entries r)
  end.

(** The values of [i] in [for (let i = n; i >= 0; i--)]. *)
Fixpoint countdown (n : nat) : list Z :=
  match n with
  | O => [0]
  | S k => Z.of_nat (S k) :: countdown k
  end.

Definition in_hour (hourStart hourEnd : Z) (d : Detection.t) : bool :=
  let t := getTime (Detection.timestamp d) in
  ge_num t hourStart && lt_num t hourEnd.

Definition is_online (now : Z) (d : Device.t) : bool :=
  match getTime (Device.lastSeen d) with
  | Some t => now - t <? 120000
  | None => false
  end.

Section Handler.

(** [new Date(ms).getHours()]: the clock hour of an instant in the
    server's time zone. *)
Variable getHours : Z → Z.

Definition hourBucket (now : Z) (detections : list Detection.t) (i : Z)
    : HourBucket.t :=
  let hourStart := now - (i + 1) * 60 * 60 * 1000 in
  let hourEnd := now - i * 60 * 60 * 1000 in
  let count := length (filter (λ d, in_hour hourStart hourEnd d) detections) in
  {| HourBucket.hour := pretty (getHours hourEnd) +:+ ":00";
     HourBucket.count := Z.of_nat count |}.

(** The [stats] object of the handler. *)
Definition stats (now : Z) (s : State) : DashboardStats.t :=
  let devices := (map_to_list (deviceStore s)).*2 in
  let detections :=
    filter (λ d, isWildCat (Detection.className d)) (all_detections s) in
  let oneDayAgo := now - 24 * 60 * 60 * 1000 in
  let oneWeekAgo := now - 7 * 24 * 60 * 60 * 1000 in
  let onlineDevices := length (filter (λ d, is_online now d) devices) in
  let detections24h :=
    filter (λ d, gt_num (getTime (Detection.timestamp d)) oneDayAgo) detections in
  let detectionsWeek :=
    filter (λ d, gt_num (getTime (Detection.timestamp d)) oneWeekAgo) detections in
  let sortedDistribution := sort_entries (classDistribution detections24h) in
  let hourlyDetections := hourBucket now detections <$> countdown 23 in
  {| DashboardStats.totalDevices := Z.of_nat (length devices);
     DashboardStats.onlineDevices := Z.of_nat onlineDevices;
     DashboardStats.totalDetections24h := Z.of_nat (length detections24h);
     DashboardStats.totalDetectionsWeek := Z.of_nat (length detectionsWeek);
     DashboardStats.classDistribution := sortedDistribution;
     DashboardStats.hourlyDetections := hourlyDetections |}.

Definition GET (now : Z) (s : State) : Response := json (StatsBody (stats now s)).

End Handler.

(** The clock hour in UTC, one instance of [getHours]. *)
Definition utcHours (ms : Z) : Z := (ms `div` 3600000) `mod` 24.

End Stats.

(** ** Runs of the two ingestion routes *)

Inductive Ingest :=
  | Single (req : DeviceDetections.Request)
  | BatchOf (clock : Z → Z) (req : Batch.Request).

Definition ingest (now : Z) (r : Ingest) (s : State) : State * Response :=
  match r with
  | Single req => DeviceDetections.POST now req s
  | BatchOf clock req => Batch.POST clock now req s
  end.

(** A run is a sequence of requests, each with the clock reading at which it
    is handled (a batch carries the readings of its loop). *)
Fixpoint run (rs : list (Z * Ingest)) (s : State) : State :=
  match rs with
  | [] => s
  | (now, r) :: rest => run rest (ingest now r s).1
  end.

(** No handler of the run is left by an exception (answers 500). *)
Fixpoint completes (rs : list (Z * Ingest)) (s : State) : Prop :=
  match rs with
  | [] => True
  | (now, r) :: rest =>
      status (ingest now r s).2 ≠ 500 ∧ completes rest (ingest now r s).1
  end.

(** ** What a request is expected to insert

    The definitions of this section are not code of the routes; they describe,
    item by item, the detections that a request adds, and the theorems below
    compare the handlers with them. *)

(** An epoch-seconds value that [new Date(t * 1000)] can represent. *)
Definition valid_timestamp (t : option Z) : Prop :=
  ∃ v, t = Some v ∧ Z.abs (v * 1000) ≤ MAX_TIME.

(** The detection that a single POST inserts, if it inserts one. *)
Definition created (now : Z) (req : DeviceDetections.Request) (s : State)
    : option Detection.t :=
  let p := DeviceDetections.payload req in
  if DeviceDetections.authorized req then
    match truthy (DeviceDetections.device_id p),
          truthy (DeviceDetections.class_name p),
          toISOString (Date ((λ t, t * 1000) <$> DeviceDetections.timestamp p)) with
    | Some device_id, Some class_name, Some iso =>
        if isWildCat class_name then
          Some (DeviceDetections.mkDetection now p device_id class_name
                  (displayName (deviceStore s !! device_id) device_id)
                  (default ("det_" +:+ device_id +:+ "_" +:+ pretty now)
                           (truthy (DeviceDetections.event_id p)))
                  iso)
        else None
    | _, _, _ => None
    end
  else None.

(** A batch item passes the species filter. *)
Definition allowed (det : Batch.Item) : bool :=
  match Batch.class_name det with
  | Some cn => isWildCat cn
  | None => false
  end.

(** A batch item on which the loop body does not raise: it has a class name,
    and a representable timestamp if it passes the species filter. *)
Definition well_formed (det : Batch.Item) : Prop :=
  is_Some (Batch.class_name det) ∧
  (allowed det = true → valid_timestamp (Batch.timestamp det)).

(** The detections made from the allowed items of a batch, oldest first; [k]
    counts the items accepted so far. *)
Fixpoint detectionsOf (clock : Z → Z) (device_id deviceName : string) (k : Z)
    (incoming : list Batch.Item) : list Detection.t :=
  match incoming with
  | [] => []
  | det :: rest =>
      match Batch.class_name det with
      | Some cn =>
          if isWildCat cn then
            Batch.mkDetection (clock k) device_id deviceName det cn
              (Date ((λ t, t * 1000) <$> Batch.timestamp det)) k
            :: detectionsOf clock device_id deviceName (k + 1) rest
          else detectionsOf clock device_id deviceName k rest
      | None => detectionsOf clock device_id deviceName k rest
      end
  end.

(** The detections that a request inserts, oldest first. *)
Definition inserted (now : Z) (r : Ingest) (s : State) : list Detection.t :=
  match r with
  | Single req => option_list (created now req s)
  | BatchOf clock req =>
      if Batch.authorized req then
        match truthy (Batch.device_id (Batch.payload req)),
              Batch.detections (Batch.payload req) with
        | Some device_id, Some incoming =>
            detectionsOf clock device_id
              (displayName (deviceStore s !! device_id) device_id) 0 incoming
        | _, _ => []
        end
      else []
  end.

Fixpoint inserted_run (rs : list (Z * Ingest)) (s : State) : list Detection.t :=
  match rs with
  | [] => []
  | (now, r) :: rest => inserted now r s ++ inserted_run rest (ingest now r s).1
  end.

(** ** What a query is expected to match

    Not code of the routes either: the stored records that a read for
    [device_id] is to draw from, each described by one explicit filter over
    the store, in the order of the store (most recent first).  An absent or
    empty [device_id] asks for the records of every device. *)

Definition of_device (device_id : option string) (id : string) : Prop :=
  ∀ dev, device_id = Some dev → dev ≠ EmptyString → id = dev.

#[global] Instance of_device_dec device_id id : Decision (of_device device_id id).
Proof.
  unfold of_device. destruct device_id as [dev|].
  - destruct (decide (dev = EmptyString)) as [->|Hne].
    + left. by intros ? [= <-] ?.
    + destruct (decide (id = dev)) as [->|Hn].
      * left. by intros ? [= <-] _.
      * right. intros H. by apply Hn, H.
  - left. by intros ? [=].
Defined.

(** The stored detections of an allow-listed species and of the device. *)
Definition listed (device_id : option string) (s : State) : list Detection.t :=
  filter (λ x, isWildCat (Detection.className x) = true
               ∧ of_device device_id (Detection.deviceId x))
         (all_detections s).

(** The audit entries of the device. *)
Definition logged (device_id : option string) (s : State) : list AuditEntry.t :=
  filter (λ e, of_device device_id (AuditEntry.deviceId e)) (detectionEventLog s).

(** ** Windows of time, as the statistics are specified *)

(** The detection carries a timestamp in [[lo, hi)]. *)
Definition stamped_in (lo hi : Z) (d : Detection.t) : Prop :=
  ∃ t, Detection.timestamp d = Some t ∧ lo ≤ t < hi.

(** The detection carries a timestamp later than [x]. *)
Definition stamped_after (x : Z) (d : Detection.t) : Prop :=
  ∃ t, Detection.timestamp d = Some t ∧ x < t.

(** The device was last seen less than 120 seconds before [now]. *)
Definition seen_recently (now : Z) (d : Device.t) : Prop :=
  ∃ t, Device.lastSeen d = Some t ∧ now - t < 120000.

#[global] Instance stamped_in_dec lo hi d : Decision (stamped_in lo hi d).
Proof.
  unfold stamped_in. destruct (Detection.timestamp d) as [t|].
  - destruct (decide (lo ≤ t < hi)); [left; eauto|right; by intros (? & [= <-] & ?)].
  - right. by intros (? & ? & ?).
Defined.

#[global] Instance stamped_after_dec x d : Decision (stamped_after x d).
Proof.
  unfold stamped_after. destruct (Detection.timestamp d) as [t|].
  - destruct (decide (x < t)); [left; eauto|right; by intros (? & [= <-] & ?)].
  - right. by intros (? & ? & ?).
Defined.

#[global] Instance seen_recently_dec now d : Decision (seen_recently now d).
Proof.
  unfold seen_recently. destruct (Device.lastSeen d) as [t|].
  - destruct (decide (now - t < 120000)); [left; eauto|right; by intros (? & [= <-] & ?)].
  - right. by intros (? & ? & ?).
Defined.

(** The species invariant of the detection store. *)
Definition only_wild_cats (l : list Detection.t) : Prop :=
  Forall (λ x, isWildCat (Detection.className x) = true) l.

(** The state with one more device in the registry. *)
Definition register (k : string) (d : Device.t) (s : State) : State :=
  mkState (<[k := d]> (deviceStore s)) (detectionStore s) (detectionEventLog s)
          (broadcasts s).

(** The bucket that the histogram is specified to hold for the hour [i]
    hours back, counted over [detections]. *)
Definition bucket_of (getHours : Z → Z) (now : Z) (detections : list Detection.t)
    (i : Z) : HourBucket.t :=
  {| HourBucket.hour := pretty (getHours (now - i * 3600000)) +:+ ":00";
     HourBucket.count :=
       Z.of_nat (length (filter (stamped_in (now - (i + 1) * 3600000)
                                            (now - i * 3600000)) detections)) |}.

(** ** [components/dashboard/SystemHealth.tsx] *)

#[global] Instance DeviceStatus_eq_dec : EqDecision DeviceStatus.
Proof. solve_decision. Defined.

Module SystemHealth.

Definition offlineDevices (devices : list Device.t) : list Device.t :=
  filter (λ d, Device.status d = offline) devices.

Definition errorDevices (devices : list Device.t) : list Device.t :=
  filter (λ d, Device.status d = error) devices.

Definition totalIssues (devices : list Device.t) : Z :=
  Z.of_nat (length (offlineDevices devices)) + Z.of_nat (length (errorDevices devices)).

Definition healthScore (devices : list Device.t) : Z :=
  Z.max 0 (100 - totalIssues devices * 15).

Definition statusText (devices : list Device.t) : string :=
  let totalIssues := totalIssues devices in
  if (0 <? totalIssues) && (totalIssues <=? 2) then "Degraded"
  else if 2 <? totalIssues then "Critical"
  else "Operational".

(** The number shown under "Online" (line 78). *)
Definition onlineCount (devices : list Device.t) : Z :=
  Z.of_nat (length (filter (λ d, Device.status d = online) devices)).

End SystemHealth.

(** ** The detection list component ([EnhancedDetectionList]) *)

Module EnhancedDetectionList.

(** [new Set(values)] followed by [Array.from]: a set keeps its elements in
    the order in which they were first added. *)
Definition add (seen : list string) (x : string) : list string :=
  if bool_decide (x ∈ seen) then seen else seen ++ [x].

Definition uniqueClasses (detections : list Detection.t) : list string :=
  fold_left add (Detection.className <$> detections) [].

(** The class buttons that are shown: [uniqueClasses.slice(0, 5)]. *)
Definition classButtons (detections : list Detection.t) : list string :=
  take 5 (uniqueClasses detections).

End EnhancedDetectionList.

(** ** Quantities the further properties are stated with *)

(** The detection counter of a device as the routes read it,
    [device.stats.detectionCount || 0]. *)
Definition counter (d : Device.t) : Z :=
  or_number (DeviceStats.detectionCount (Device.stats d)) 0.

(** The device a request is for, when it names one. *)
Definition target (r : Ingest) : option string :=
  match r with
  | Single req => truthy (DeviceDetections.device_id (DeviceDetections.payload req))
  | BatchOf _ req => truthy (Batch.device_id (Batch.payload req))
  end.

(** The sum of a list of numbers. *)
Definition total (l : list Z) : Z := foldr Z.add 0 l.

(** The audit entry [e] describes the stored detection [x]. *)
Definition mirrors (x : Detection.t) (e : AuditEntry.t) : Prop :=
  Detection.eventId x = Some (AuditEntry.eventId e)
  ∧ Detection.deviceId x = AuditEntry.deviceId e
  ∧ Detection.className x = Details.className (AuditEntry.details e)
  ∧ Detection.confidence x = Details.confidence (AuditEntry.details e)
  ∧ Detection.cameraId x = Details.cameraId (AuditEntry.details e).

(** The requests of a run all go to the single-detection route. *)
Definition single_only (rs : list (Z * Ingest)) : Prop :=
  Forall (λ r, ∃ req, r.2 = Single req) rs.

(** ** Scenarios *)

Definition T : Z := 1700000000.
Definition NOW : Z := 1700000005000.

(** The payload [{device_id, class_name, confidence, timestamp}]. *)
Definition detection_payload (device_id class_name : string)
    (confidence : number) (timestamp : option Z)
    : DeviceDetections.DetectionPayload :=
  DeviceDetections.mkPayload None None (Some device_id) None timestamp
    (Some class_name) None confidence None None None None.

Definition post_dog : DeviceDetections.Request :=
  DeviceDetections.mkRequest true (detection_payload "cam-1" "dog" 0.99%Q (Some T)).

Definition post_Tiger : DeviceDetections.Request :=
  DeviceDetections.mkRequest true (detection_payload "cam-1" "Tiger" 0.92%Q (Some T)).

(** A batch item [{detection_id, class_name, confidence: 0.9, timestamp}]. *)
Definition item (detection_id : Z) (class_name : string) (timestamp : option Z)
    : Batch.Item :=
  Batch.mkItem (Some detection_id) timestamp (Some class_name) 0.9%Q None None.

Definition batch (device_id : string) (items : list Batch.Item) : Batch.Request :=
  Batch.mkRequest true (Batch.mkPayload (Some device_id) (Some items)).

(** A clock that stands still at [now] while a batch is looped over. *)
Definition steady (now : Z) : Z → Z := λ _, now.

(** [n] tiger sightings with the detection ids 1 to [n]. *)
Definition tigers (n : nat) : list Batch.Item :=
  (λ i, item (Z.of_nat i) "tiger" (Some T)) <$> seq 1 n.

(** Three wild cats and two other animals. *)
Definition mixed : list Batch.Item :=
  [item 1 "tiger" (Some T); item 2 "dog" (Some T); item 3 "Lion" (Some T);
   item 4 "house cat" None; item 5 "lynx" (Some T)].

(** The device [cam-1], registered, last seen ten minutes before [NOW]. *)
Definition cam1 (st : DeviceStatus) : Device.t :=
  Device.mk "cam-1" "North gate" st (Some (NOW - 600000)) (DeviceStats.mk (Some 7)).

Definition registered (st : DeviceStatus) : State :=
  mkState {["cam-1" := cam1 st]} ∅ [] [].

(** The state after two accepted tiger sightings from [cam-1]. *)
Definition two_tigers : State :=
  run [(NOW, Single post_Tiger); (NOW + 1000, Single post_Tiger)] init.

(** The number of times the class name [k] occurs in [names]. *)
Definition occurrences (k : string) (names : list string) : Z :=
  Z.of_nat (length (filter (λ x, x = k) names)).

(** [o] is the frequency table of [names]: one entry per distinct name, with
    its number of occurrences, the names in the order in which they first
    occur. *)
Record tallied (names : list string) (o : list (string * Z)) : Prop := {
  tallied_nodup : NoDup o.*1;
  tallied_keys : ∀ k, k ∈ o.*1 ↔ k ∈ names;
  tallied_count : ∀ k c, (k, c) ∈ o → c = occurrences k names;
  tallied_order : ∀ k1 k2, [k1; k2] `sublist_of` o.*1 →
                  ∃ pre post, names = pre ++ k1 :: post ∧ k2 ∉ pre
}.

(** A stored detection of the given class, seen at [T] by [cam-1]. *)
Definition sighting (class_name : string) : Detection.t :=
  Detection.mk 1 None "cam-1" "cam-1" None (Some (T * 1000)) class_name 0.9%Q []
               None None None.

(** The state whose store holds the given detections. *)
Definition holding (l : list Detection.t) : State :=
  mkState ∅ {["all" := l]} [] [].

(** ** Properties *)

(** *** Small facts about the helpers *)

Lemma truncate_take {A} (n : nat) (l : list A) : truncate n l = take n l.
Proof.
  unfold truncate. destruct (Nat.ltb_spec n (length l)) as [H|H]; [done|].
  by rewrite take_ge.
Qed.

Lemma take_app_take {A} (n : nat) (l k : list A) :
  take n (l ++ take n k) = take n (l ++ k).
Proof.
  rewrite !take_app, take_take. f_equal. f_equal. lia.
Qed.

Lemma toISOString_Some (d iso : option Z) :
  toISOString d = Some iso → iso = d ∧ is_Some d.
Proof. destruct d; simpl; [|done]. intros [= <-]. eauto. Qed.

Lemma valid_timestamp_Date (t : option Z) :
  valid_timestamp t →
  ∃ v, t = Some v ∧ Date ((λ t, t * 1000) <$> t) = Some (v * 1000).
Proof.
  intros (v & -> & Hv). exists v. split; [done|]. simpl.
  destruct (Z.leb_spec (Z.abs (v * 1000)) MAX_TIME); [done|lia].
Qed.

Lemma truthy_Some (v : option string) (x : string) :
  truthy v = Some x → v = Some x ∧ x ≠ EmptyString.
Proof.
  destruct v as [y|]; simpl; [|done].
  destruct (String.eqb_spec y EmptyString); [done|]. by intros [= <-].
Qed.

(** *** Rejection of a disallowed species (single detection) *)

(** C1, as amended: an authorized single-detection POST with [device_id] and
    [class_name] present whose class name fails the allow-list is answered
    with HTTP 400 and [success = false], and the state is left exactly as it
    was: no detection is stored, no device is updated, nothing is broadcast,
    and the audit log gains no entry. *)
Theorem rejected_species_changes_nothing
    (now : Z) (req : DeviceDetections.Request) (s : State) (d c : string) :
  DeviceDetections.authorized req = true →
  DeviceDetections.device_id (DeviceDetections.payload req) = Some d → d ≠ EmptyString →
  DeviceDetections.class_name (DeviceDetections.payload req) = Some c → c ≠ EmptyString →
  isWildCat c = false →
  DeviceDetections.POST now req s
    = (s, mkResponse 400 (Failure "Only wild cat species are allowed"))
  ∧ success (body (DeviceDetections.POST now req s).2) = Some false
  ∧ all_detections (DeviceDetections.POST now req s).1 = all_detections s
  ∧ broadcasts (DeviceDetections.POST now req s).1 = broadcasts s
  ∧ detectionEventLog (DeviceDetections.POST now req s).1 = detectionEventLog s.
Proof.
  intros Ha Hd Hd' Hc Hc' Hw.
  assert (DeviceDetections.POST now req s
          = (s, mkResponse 400 (Failure "Only wild cat species are allowed"))) as E.
  { unfold DeviceDetections.POST. rewrite Ha, Hd, Hc. simpl.
    destruct (String.eqb_spec d EmptyString); [done|].
    destruct (String.eqb_spec c EmptyString); [done|].
    by rewrite Hw. }
  by rewrite E.
Qed.

Lemma rejected_species_changes_nothing_witness :
  DeviceDetections.POST NOW post_dog init
    = (init, mkResponse 400 (Failure "Only wild cat species are allowed"))
  ∧ success (body (DeviceDetections.POST NOW post_dog init).2) = Some false
  ∧ all_detections (DeviceDetections.POST NOW post_dog init).1 = all_detections init
  ∧ broadcasts (DeviceDetections.POST NOW post_dog init).1 = broadcasts init
  ∧ detectionEventLog (DeviceDetections.POST NOW post_dog init).1
    = detectionEventLog init.
Proof.
  apply (rejected_species_changes_nothing NOW post_dog init "cam-1" "dog");
    try reflexivity; discriminate.
Defined.

(** C1, the claim as stated fails: after the rejected POST of a dog from
    [cam-1], the audit log holds no entry for [cam-1]. *)
Lemma rejected_species_not_audited :
  ¬ ∃ e, e ∈ detectionEventLog (DeviceDetections.POST NOW post_dog init).1
         ∧ AuditEntry.deviceId e = "cam-1".
Proof.
  intros (e & He & _). vm_compute in He. by apply elem_of_nil in He.
Qed.

(** *** The batch loop *)

Lemma allowed_eq det cn :
  Batch.class_name det = Some cn → allowed det = isWildCat cn.
Proof. unfold allowed. by intros ->. Qed.

Lemma filter_allowed_cons det rest :
  filter (λ det, allowed det) (det :: rest)
  = if allowed det then det :: filter (λ det, allowed det) rest
    else filter (λ det, allowed det) rest.
Proof.
  destruct (allowed det) eqn:E.
  - rewrite filter_cons_True; [done|]. by apply Is_true_true.
  - rewrite filter_cons_False; [done|]. by apply Is_true_false.
Qed.

Lemma detectionsOf_length clock d nm k items :
  length (detectionsOf clock d nm k items) = length (filter (λ det, allowed det) items).
Proof.
  revert k. induction items as [|det rest IH]; intros k; [done|].
  rewrite filter_allowed_cons. simpl. unfold allowed at 1.
  destruct (Batch.class_name det) as [cn|]; [|by rewrite IH].
  destruct (isWildCat cn); simpl; by rewrite IH.
Qed.

(** When the loop runs to the end it has unshifted exactly [detectionsOf],
    counted them, and met only well-formed items. *)
Lemma loop_Done clock d nm items acc a r l a' r' :
  Batch.loop clock d nm items acc a r = Batch.Done l a' r' →
  l = rev (detectionsOf clock d nm a items) ++ acc
  ∧ a' = a + Z.of_nat (length (filter (λ det, allowed det) items))
  ∧ a' + r' = a + r + Z.of_nat (length items)
  ∧ Forall well_formed items.
Proof.
  revert acc a r. induction items as [|det rest IH]; intros acc a r.
  { simpl. intros [= <- <- <-]. repeat split; [lia..|constructor]. }
  rewrite filter_allowed_cons. simpl. unfold well_formed.
  destruct (Batch.class_name det) as [cn|] eqn:Hcn; [|done].
  rewrite (allowed_eq _ _ Hcn).
  destruct (isWildCat cn) eqn:Hw; simpl.
  - destruct (toISOString _) as [iso|] eqn:Hiso; [|done].
    apply toISOString_Some in Hiso as [-> Hv].
    intros H. apply IH in H as (-> & -> & Hr & Hwf).
    repeat split.
    + by rewrite <- app_assoc.
    + simpl. lia.
    + lia.
    + constructor; [|done]. rewrite Hcn. split; [eauto|]. intros _.
      destruct (Batch.timestamp det) as [v|]; simpl in Hv; [|by destruct Hv].
      exists v. split; [done|].
      destruct (Z.leb_spec (Z.abs (v * 1000)) MAX_TIME); [done|by destruct Hv].
  - intros H. apply IH in H as (-> & -> & Hr & Hwf).
    repeat split; [lia..|]. constructor; [|done]. rewrite Hcn. split; [eauto|].
    by rewrite (allowed_eq _ _ Hcn), Hw.
Qed.

(** On well-formed items the loop does run to the end. *)
Lemma loop_well_formed clock d nm items acc a r :
  Forall well_formed items →
  ∃ l a' r', Batch.loop clock d nm items acc a r = Batch.Done l a' r'.
Proof.
  intros Hwf. revert acc a r.
  induction Hwf as [|det rest [[cn Hcn] Hts] _ IH]; intros acc a r; simpl; [eauto|].
  unfold allowed in Hts. rewrite Hcn in *.
  destruct (isWildCat cn); simpl; [|apply IH].
  destruct (valid_timestamp_Date _ (Hts eq_refl)) as (v & _ & ->). simpl. apply IH.
Qed.

(** *** One request and the detection store *)

Lemma all_detections_insert devs store log sent l :
  all_detections (mkState devs (<["all" := l]> store) log sent) = l.
Proof. unfold all_detections. simpl. by rewrite lookup_insert_eq. Qed.

Lemma single_store now req s :
  all_detections (DeviceDetections.POST now req s).1
  = truncate 1000 (rev (option_list (created now req s)) ++ all_detections s)
  ∨ (created now req s = None ∧ (DeviceDetections.POST now req s).1 = s).
Proof.
  unfold DeviceDetections.POST, created.
  destruct (DeviceDetections.authorized req); simpl; [|by right].
  destruct (truthy (DeviceDetections.device_id _)) as [d|]; [|by right].
  destruct (truthy (DeviceDetections.class_name _)) as [c|]; [|by right].
  destruct (toISOString _) as [iso|].
  - destruct (isWildCat c); simpl; [|by right]. left.
    destruct (truthy (DeviceDetections.event_id _));
      destruct (deviceStore s !! d); simpl; by rewrite all_detections_insert.
  - destruct (isWildCat c); by right.
Qed.

Lemma batch_store clock now req s :
  status (Batch.POST clock now req s).2 ≠ 500 →
  all_detections (Batch.POST clock now req s).1
  = truncate 1000 (rev (inserted now (BatchOf clock req) s) ++ all_detections s)
  ∨ (inserted now (BatchOf clock req) s = [] ∧ (Batch.POST clock now req s).1 = s).
Proof.
  unfold Batch.POST, inserted.
  destruct (Batch.authorized req); simpl; [|by right].
  destruct (truthy (Batch.device_id _)) as [d|]; [|by right].
  destruct (Batch.detections _) as [items|]; [|by right].
  destruct (Batch.loop _ _ _ _ _ _ _) as [l a r|l] eqn:Hloop; simpl; [|done].
  intros _. left. apply loop_Done in Hloop as (-> & _).
  by rewrite all_detections_insert.
Qed.

(** A request that completes puts what it inserts in front of the store and
    cuts the store to 1000. *)
Lemma ingest_store now r s :
  (length (all_detections s) ≤ 1000)%nat →
  status (ingest now r s).2 ≠ 500 →
  all_detections (ingest now r s).1
  = take 1000 (rev (inserted now r s) ++ all_detections s).
Proof.
  intros Hlen Hst. destruct r as [req|clock req]; simpl in *.
  - destruct (single_store now req s) as [->|[-> ->]].
    + apply truncate_take.
    + simpl. by rewrite take_ge.
  - destruct (batch_store clock now req s Hst) as [->|[E ->]].
    + apply truncate_take.
    + unfold inserted in E. rewrite E. simpl. by rewrite take_ge.
Qed.

Lemma run_store rs s :
  (length (all_detections s) ≤ 1000)%nat →
  completes rs s →
  all_detections (run rs s)
  = take 1000 (rev (inserted_run rs s) ++ all_detections s).
Proof.
  revert s. induction rs as [|[now r] rest IH]; intros s Hlen Hc; simpl.
  { by rewrite take_ge. }
  destruct Hc as [Hst Hc].
  pose proof (ingest_store now r s Hlen Hst) as E.
  rewrite IH; [|rewrite E, length_take; lia|done].
  rewrite E, take_app_take, rev_app_distr. by rewrite <- app_assoc.
Qed.

Lemma completes_prefix rs1 rs2 s : completes (rs1 ++ rs2) s → completes rs1 s.
Proof.
  revert s. induction rs1 as [|[now r] rest IH]; intros s; simpl; [done|].
  intros [? ?]. split; [done|]. by apply IH.
Qed.

(** What a completed request reports is what it inserted: a recorded single
    detection is the one inserted detection, and the [count] of a batch is
    the number of inserted detections. *)
Lemma inserted_reported now r s :
  status (ingest now r s).2 = 200 →
  match r with
  | Single _ =>
      ∃ x eid, inserted now r s = [x]
        ∧ body (ingest now r s).2 = Recorded "Detection recorded" eid (Detection.id x)
  | BatchOf _ _ =>
      count_of (ingest now r s).2 = Some (Z.of_nat (length (inserted now r s)))
  end.
Proof.
  destruct r as [req|clock req]; simpl.
  - unfold DeviceDetections.POST, created.
    destruct (DeviceDetections.authorized req); simpl; [|done].
    destruct (truthy (DeviceDetections.device_id _)) as [d|]; [|done].
    destruct (truthy (DeviceDetections.class_name _)) as [c|]; [|done].
    destruct (isWildCat c); simpl; [|by destruct (toISOString _)].
    destruct (toISOString _) as [iso|]; [|done]. intros _.
    destruct (truthy (DeviceDetections.event_id _));
      destruct (deviceStore s !! d); simpl; eauto.
  - unfold Batch.POST.
    destruct (Batch.authorized req); simpl; [|done].
    destruct (truthy (Batch.device_id _)) as [d|]; [|done].
    destruct (Batch.detections _) as [items|]; [|done].
    destruct (Batch.loop _ _ _ _ _ _ _) as [l a r|l] eqn:Hloop; simpl; [|done].
    intros _. apply loop_Done in Hloop as (_ & -> & _).
    unfold count_of. simpl. by rewrite detectionsOf_length.
Qed.

(** *** Capacity of the detection store *)

(** Along every run of the two ingestion routes in which no handler is left
    by an exception, the detection store never holds more than 1000
    detections; it holds the 1000 most recent of the inserted detections in
    front of what it held before, so once 1000 + k detections have been
    inserted exactly 1000 remain, the last 1000 inserted, most recent first.
    The proviso cannot be dropped: a batch that is left by an exception can
    leave 1001 detections behind. *)
Theorem store_keeps_most_recent_1000 (rs : list (Z * Ingest)) (s : State) :
  (length (all_detections s) ≤ 1000)%nat →
  completes rs s →
  (∀ rs1 rs2, rs = rs1 ++ rs2 → (length (all_detections (run rs1 s)) ≤ 1000)%nat)
  ∧ all_detections (run rs s)
    = take 1000 (rev (inserted_run rs s) ++ all_detections s)
  ∧ ∀ k : nat, length (inserted_run rs s) = (1000 + k)%nat →
      length (all_detections (run rs s)) = 1000%nat
      ∧ all_detections (run rs s) = rev (drop k (inserted_run rs s)).
Proof.
  intros Hlen Hc. split; [|split].
  - intros rs1 rs2 ->. apply completes_prefix in Hc.
    rewrite (run_store _ _ Hlen Hc), length_take. lia.
  - by apply run_store.
  - intros k Hk. rewrite (run_store _ _ Hlen Hc).
    rewrite take_app_le by (rewrite length_rev; lia).
    assert (take 1000 (rev (inserted_run rs s)) = rev (drop k (inserted_run rs s))) as ->.
    { rewrite firstn_rev. do 2 f_equal. lia. }
    split; [|done]. rewrite length_rev, length_drop. lia.
Qed.

(** C2, evaluated where the code departs from it: with 1000 detections
    stored, a batch of two tigers of which the second has a timestamp beyond
    the range of [Date] is answered with 500 after its first item was
    unshifted into the array that the store holds; the cut after the loop is
    skipped, so the store is left with 1001 detections, the new one in front,
    and [GET /detections] serves all 1001.  The single-detection route, given
    a tiger in the same state, cuts the store back to 1000 in the same step. *)
Theorem aborted_batch_exceeds_capacity :
  let s := run [(NOW, BatchOf (steady NOW) (batch "cam-1" (tigers 1000)))] init in
  let items := [item 2001 "tiger" (Some T);
                item 2002 "tiger" (Some 10000000000000)] in
  let r := Batch.POST (steady (NOW + 1000)) (NOW + 1000) (batch "cam-1" items) s in
  length (all_detections s) = 1000%nat
  ∧ Forall (λ det, allowed det = true) items
  ∧ r.2 = mkResponse 500 (Failure "Failed to record detections")
  ∧ length (all_detections r.1) = 1001%nat
  ∧ Detection.id <$> head (all_detections r.1) = Some 2001
  ∧ count_of (Detections.GET (Detections.mkQuery (Some (PInt 2000)) None) r.1)
    = Some 1001
  ∧ length (all_detections (DeviceDetections.POST (NOW + 1000) post_Tiger s).1)
    = 1000%nat.
Proof.
  repeat split; try (vm_compute; reflexivity).
  repeat constructor.
Qed.

(** *** Batch ingestion *)

Lemma detectionsOf_items clock d nm k items :
  Forall2 (λ x det, Batch.class_name det = Some (Detection.className x)
                    ∧ Detection.confidence x = Batch.confidence det
                    ∧ Detection.deviceId x = d
                    ∧ Detection.deviceName x = nm)
          (detectionsOf clock d nm k items) (filter (λ det, allowed det) items).
Proof.
  revert k. induction items as [|det rest IH]; intros k; [constructor|].
  rewrite filter_allowed_cons. simpl. unfold allowed at 1.
  destruct (Batch.class_name det) as [cn|] eqn:Hcn; [|apply IH].
  destruct (isWildCat cn); [|apply IH]. constructor; [|apply IH]. by rewrite Hcn.
Qed.

(** C3, as amended: an authorized batch for one device whose items all have
    a class name and, where allow-listed, a representable timestamp, is
    answered with [count] = the number [a] of allow-listed items; the other
    items are skipped without ending the batch; the accepted items are put in
    front of the store, one detection each, and the store is then cut to its
    1000 most recent entries, so all of them are stored when [a ≤ 1000]; and
    the counter of the device, if it is registered, grows by exactly [a]. *)
Theorem batch_counts_accepted_items
    (clock : Z → Z) (now : Z) (req : Batch.Request) (s : State) (d : string)
    (items : list Batch.Item) :
  Batch.authorized req = true →
  Batch.device_id (Batch.payload req) = Some d → d ≠ EmptyString →
  Batch.detections (Batch.payload req) = Some items →
  Forall well_formed items →
  let accepted := filter (λ det, allowed det) items in
  let a := Z.of_nat (length accepted) in
  let new := detectionsOf clock d (displayName (deviceStore s !! d) d) 0 items in
  let s' := (Batch.POST clock now req s).1 in
  (Batch.POST clock now req s).2
    = mkResponse 200 (BatchRecorded (pretty a +:+ " detections recorded") a)
  ∧ Forall2 (λ x det, Batch.class_name det = Some (Detection.className x)
                      ∧ Detection.confidence x = Batch.confidence det
                      ∧ Detection.deviceId x = d
                      ∧ Detection.deviceName x = displayName (deviceStore s !! d) d)
            new accepted
  ∧ all_detections s' = take 1000 (rev new ++ all_detections s)
  ∧ (a ≤ 1000 → take (length accepted) (all_detections s') = rev new)
  ∧ ∀ dev, deviceStore s !! d = Some dev →
      ∃ dev', deviceStore s' !! d = Some dev'
        ∧ DeviceStats.detectionCount (Device.stats dev')
          = Some (or_number (DeviceStats.detectionCount (Device.stats dev)) 0 + a).
Proof.
  intros Ha Hd Hd' Hi Hwf accepted a new s'.
  assert (truthy (Some d) = Some d) as Ht.
  { simpl. by destruct (String.eqb_spec d EmptyString). }
  destruct (loop_well_formed clock d (displayName (deviceStore s !! d) d) items
              (all_detections s) 0 0 Hwf) as (l & a' & r' & Hloop).
  pose proof Hloop as Hl. apply loop_Done in Hl as (-> & -> & _ & _).
  assert (Batch.POST clock now req s
          = (mkState
               match deviceStore s !! d with
               | Some dev => <[d := Batch.touch now a dev]> (deviceStore s)
               | None => deviceStore s
               end
               (<["all" := truncate 1000 (rev new ++ all_detections s)]>
                  (detectionStore s))
               (detectionEventLog s) (broadcasts s),
             mkResponse 200 (BatchRecorded (pretty a +:+ " detections recorded") a)))
    as E.
  { unfold Batch.POST. rewrite Ha, Hd, Hi, Ht. simpl. by rewrite Hloop. }
  subst s'. rewrite E. simpl. rewrite all_detections_insert, truncate_take.
  repeat split.
  - apply detectionsOf_items.
  - intros Hle.
    assert (length (rev new) = length accepted) as Hn.
    { rewrite length_rev. apply detectionsOf_length. }
    assert (length accepted `min` 1000 = length accepted)%nat as Hm by lia.
    rewrite take_take, Hm, take_app_le by lia. apply take_ge. lia.
  - intros dev Hdev. rewrite Hdev. exists (Batch.touch now a dev).
    by rewrite lookup_insert_eq.
Qed.

Ltac well_formed_items :=
  repeat first
    [ apply Forall_nil_2
    | apply Forall_cons_2;
      [ split;
        [ eexists; reflexivity
        | intros H; first
            [ discriminate H
            | eexists; split; [reflexivity | vm_compute; discriminate] ] ]
      | ] ].

Lemma store_keeps_most_recent_1000_witness :
  length (inserted_run [(NOW, BatchOf (steady NOW) (batch "cam-1" (tigers 1001)));
                        (NOW + 1000, Single post_Tiger)] init) = 1002%nat
  ∧ length (all_detections
              (run [(NOW, BatchOf (steady NOW) (batch "cam-1" (tigers 1001)));
                    (NOW + 1000, Single post_Tiger)] init)) = 1000%nat
  ∧ all_detections
      (run [(NOW, BatchOf (steady NOW) (batch "cam-1" (tigers 1001)));
            (NOW + 1000, Single post_Tiger)] init)
    = rev (drop 2 (inserted_run [(NOW, BatchOf (steady NOW) (batch "cam-1" (tigers 1001)));
                                 (NOW + 1000, Single post_Tiger)] init)).
Proof.
  destruct (store_keeps_most_recent_1000
              [(NOW, BatchOf (steady NOW) (batch "cam-1" (tigers 1001)));
               (NOW + 1000, Single post_Tiger)] init) as (_ & _ & H).
  - vm_compute. apply Nat.le_0_l.
  - vm_compute. split; [discriminate|]. split; [discriminate|exact I].
  - split; [vm_compute; reflexivity|]. apply (H 2%nat). vm_compute. reflexivity.
Defined.

Lemma batch_counts_accepted_items_witness :
  (Batch.POST (steady NOW) NOW (batch "cam-1" mixed) (registered offline)).2
    = mkResponse 200 (BatchRecorded "3 detections recorded" 3)
  ∧ (Detection.className <$>
       all_detections (Batch.POST (steady NOW) NOW (batch "cam-1" mixed) (registered offline)).1)
    = ["lynx"; "Lion"; "tiger"]
  ∧ ∃ dev', deviceStore (Batch.POST (steady NOW) NOW (batch "cam-1" mixed) (registered offline)).1
              !! "cam-1" = Some dev'
      ∧ DeviceStats.detectionCount (Device.stats dev') = Some (7 + 3).
Proof.
  destruct (batch_counts_accepted_items (steady NOW) NOW (batch "cam-1" mixed)
              (registered offline) "cam-1" mixed)
    as (E & _ & Hs & _ & Hd); [reflexivity|reflexivity|discriminate|reflexivity| |].
  - unfold mixed. well_formed_items.
  - split; [exact E|]. split; [rewrite Hs; reflexivity|].
    apply (Hd (cam1 offline)). reflexivity.
Defined.

(** C3, the claim as stated fails: of a batch of 1001 tigers, answered with
    [count = 1001], the first item is not in the store afterwards; and a batch
    whose second allow-listed item has no timestamp is answered with 500
    instead of a count. *)
Lemma batch_accepted_item_not_stored :
  (Batch.POST (steady NOW) NOW (batch "cam-1" (tigers 1001)) init).2
    = mkResponse 200 (BatchRecorded "1001 detections recorded" 1001)
  ∧ item 1 "tiger" (Some T) ∈ tigers 1001
  ∧ allowed (item 1 "tiger" (Some T)) = true
  ∧ (¬ ∃ x, x ∈ all_detections (Batch.POST (steady NOW) NOW (batch "cam-1" (tigers 1001)) init).1
            ∧ Detection.id x = 1)
  ∧ (Batch.POST (steady NOW) NOW (batch "cam-1" [item 1 "tiger" (Some T); item 2 "tiger" None])
                init).2
    = mkResponse 500 (Failure "Failed to record detections").
Proof.
  split; [vm_compute; reflexivity|].
  split; [unfold tigers; simpl; left|].
  split; [vm_compute; reflexivity|].
  split; [|vm_compute; reflexivity].
  intros (x & Hx & Hid).
  assert (forallb (λ x, negb (Detection.id x =? 1))
            (all_detections (Batch.POST (steady NOW) NOW (batch "cam-1" (tigers 1001)) init).1)
          = true) as H by (vm_compute; reflexivity).
  rewrite forallb_forall in H. apply list_elem_of_In, H in Hx.
  rewrite Hid in Hx. discriminate Hx.
Qed.

(** *** Device record on ingestion *)

(** An accepted single detection for a registered device writes the touched
    record (status [online], [lastSeen = now], counter + 1) and broadcasts it. *)
Lemma single_accept_touches_device now req s d dev :
  status (DeviceDetections.POST now req s).2 = 200 →
  DeviceDetections.device_id (DeviceDetections.payload req) = Some d →
  deviceStore s !! d = Some dev →
  deviceStore (DeviceDetections.POST now req s).1 !! d
    = Some (DeviceDetections.touch now dev)
  ∧ Device.status (DeviceDetections.touch now dev) = online
  ∧ Device.lastSeen (DeviceDetections.touch now dev) = Some now
  ∧ broadcasts (DeviceDetections.POST now req s).1
    = broadcasts s ++ [DeviceDetections.touch now dev].
Proof.
  unfold DeviceDetections.POST. intros Hst Hd Hdev. rewrite Hd in *.
  destruct (DeviceDetections.authorized req); simpl in *; [|done].
  destruct (String.eqb_spec d EmptyString); simpl in *; [done|].
  destruct (truthy (DeviceDetections.class_name _)) as [c|]; [|done].
  destruct (isWildCat c); simpl in *; [|done].
  destruct (toISOString _) as [iso|]; [|done].
  rewrite Hdev. simpl. by rewrite lookup_insert_eq.
Qed.

(** An accepted batch for a registered device writes [lastSeen] and the
    counter, and leaves [status] as it was. *)
Lemma batch_accept_keeps_status clock now req s d dev :
  status (Batch.POST clock now req s).2 = 200 →
  Batch.device_id (Batch.payload req) = Some d →
  deviceStore s !! d = Some dev →
  ∃ dev', deviceStore (Batch.POST clock now req s).1 !! d = Some dev'
    ∧ Device.status dev' = Device.status dev
    ∧ Device.lastSeen dev' = Some now.
Proof.
  unfold Batch.POST. intros Hst Hd Hdev. rewrite Hd in *.
  destruct (Batch.authorized req); simpl in *; [|done].
  destruct (String.eqb_spec d EmptyString); simpl in *; [done|].
  destruct (Batch.detections _) as [items|]; [|done].
  destruct (Batch.loop _ _ _ _ _ _ _) as [l a r|l]; [|done].
  rewrite Hdev. simpl. rewrite lookup_insert_eq. eauto.
Qed.

(** C4, evaluated where the code departs from it: a batch with one tiger
    for the registered device [cam-1], whose status is [offline], is accepted
    ([count = 1]); the record then has [lastSeen = NOW] and the counter 8, but
    its status is still [offline]. *)
Theorem batch_accept_leaves_device_offline :
  (Batch.POST (steady NOW) NOW (batch "cam-1" [item 1 "tiger" (Some T)]) (registered offline)).2
    = mkResponse 200 (BatchRecorded "1 detections recorded" 1)
  ∧ deviceStore
      (Batch.POST (steady NOW) NOW (batch "cam-1" [item 1 "tiger" (Some T)]) (registered offline)).1
      !! "cam-1"
    = Some (Device.mk "cam-1" "North gate" offline (Some NOW) (DeviceStats.mk (Some 8))).
Proof. split; vm_compute; reflexivity. Qed.

(** *** Listing the stored detections *)

Lemma slice0_prefix {A} (l : list A) (e : ParsedInt) : slice0 l e `prefix_of` l.
Proof. destruct e; simpl; [apply prefix_nil|apply prefix_take]. Qed.

Lemma slice0_length {A} (l : list A) (n : Z) :
  Z.of_nat (length (slice0 l (PInt n)))
  = if n <? 0 then Z.max (Z.of_nat (length l) + n) 0 else Z.min n (Z.of_nat (length l)).
Proof.
  simpl. rewrite length_take. destruct (Z.ltb_spec n 0); lia.
Qed.

Lemma matching_spec (q : Detections.Query) (s : State) (x : Detection.t) :
  x ∈ Detections.matching q s ↔
  x ∈ all_detections s ∧ isWildCat (Detection.className x) = true
  ∧ ∀ dev, truthy (Detections.q_device_id q) = Some dev → Detection.deviceId x = dev.
Proof.
  unfold Detections.matching.
  destruct (truthy _) as [dev|]; rewrite ?list_elem_of_filter, Is_true_true.
  - split.
    + intros (? & ? & ?). repeat split; [done..|]. by intros ? [= <-].
    + intros (? & ? & H). repeat split; [|done..]. by apply H.
  - split; [intros [? ?]|intros (? & ? & _)]; done.
Qed.

Lemma matching_sublist (q : Detections.Query) (s : State) :
  Detections.matching q s `sublist_of` all_detections s.
Proof.
  unfold Detections.matching. destruct (truthy _).
  - etrans; apply sublist_filter.
  - apply sublist_filter.
Qed.

Lemma slice0_default_length {A} (l : list A) (n : Z) :
  0 ≤ n → slice0 l (PInt n) = take (Z.to_nat n) l.
Proof.
  intros Hn. simpl. destruct (Z.ltb_spec n 0); [lia|].
  destruct (decide (n ≤ Z.of_nat (length l))).
  - by rewrite Z.min_l.
  - rewrite Z.min_r, Nat2Z.id, !take_ge by lia. done.
Qed.

Lemma filter_all {A} (P : A → Prop) `{∀ x, Decision (P x)} (l : list A) :
  Forall P l → filter P l = l.
Proof.
  induction 1 as [|x l Hx _ IH]; [done|]. rewrite filter_cons_True by done. by rewrite IH.
Qed.

Lemma filter_none {A} (P : A → Prop) `{∀ x, Decision (P x)} (l : list A) :
  Forall (λ x, ¬ P x) l → filter P l = [].
Proof.
  induction 1 as [|x l Hx _ IH]; [done|]. by rewrite filter_cons_False.
Qed.

Lemma slice0_negative {A} (l : list A) (n : Z) :
  n < 0 → slice0 l (PInt n) = take (Z.to_nat (Z.of_nat (length l) + n)) l.
Proof.
  intros Hn. simpl. destruct (Z.ltb_spec n 0); [|lia].
  destruct (decide (0 ≤ Z.of_nat (length l) + n)).
  - by rewrite Z.max_l.
  - rewrite Z.max_r by lia. by replace (Z.to_nat (_ + n)) with 0%nat by lia.
Qed.

Lemma of_device_truthy device_id id :
  of_device device_id id ↔
  match truthy device_id with Some dev => id = dev | None => True end.
Proof.
  unfold of_device. destruct device_id as [dev|]; simpl; [|done].
  destruct (String.eqb_spec dev EmptyString) as [->|Hne].
  - split; [done|]. by intros _ ? [= <-] ?.
  - split; [intros H; by apply H|]. by intros -> ? [= <-] _.
Qed.

(** The two filters of the listing route select the detections [listed]. *)
Lemma matching_listed (q : Detections.Query) (s : State) :
  Detections.matching q s = listed (Detections.q_device_id q) s.
Proof.
  unfold Detections.matching, listed.
  pose proof (of_device_truthy (Detections.q_device_id q)) as Hd.
  destruct (truthy (Detections.q_device_id q)) as [dev|].
  - rewrite list_filter_filter. apply list_filter_iff. intros x.
    rewrite Hd, Is_true_true. tauto.
  - apply list_filter_iff. intros x. rewrite Hd, Is_true_true. tauto.
Qed.

(** The filter of the audit route selects the entries [logged]. *)
Lemma matching_logged (q : DeviceDetections.Query) (s : State) :
  DeviceDetections.matching q s = logged (DeviceDetections.q_device_id q) s.
Proof.
  unfold DeviceDetections.matching, logged.
  pose proof (of_device_truthy (DeviceDetections.q_device_id q)) as Hd.
  destruct (truthy (DeviceDetections.q_device_id q)) as [dev|].
  - apply list_filter_iff. intros e. by rewrite Hd.
  - symmetry. apply filter_all. apply Forall_forall. intros e _. by rewrite Hd.
Qed.

(** C5, as amended: [GET /detections] with an integer [limit = n] answers
    200 with a prefix of the matching detections (the allow-listed stored
    detections of the requested device, in store order, most recent first)
    and [count] = its length.  For [n ≥ 0] these are the first [n] matching
    detections, [min(n, matching)] items, none for [n = 0]; for [n < 0] they
    are all but the last [|n|] matching detections, [max(matching + n, 0)] of
    them.  For a non-empty [device_id] that no stored detection carries, the
    sequence is empty. *)
Theorem list_returns_prefix_of_matching (q : Detections.Query) (s : State) (n : Z) :
  Detections.q_limit q = Some (PInt n) →
  let r := Detections.GET q s in
  let matches := listed (Detections.q_device_id q) s in
  let total := Z.of_nat (length matches) in
  status r = 200
  ∧ success (body r) = Some true
  ∧ count_of r = Some (Z.of_nat (length (detections_of r)))
  ∧ detections_of r `prefix_of` matches
  ∧ matches `sublist_of` all_detections s
  ∧ (0 ≤ n → detections_of r = take (Z.to_nat n) matches
             ∧ Z.of_nat (length (detections_of r)) = Z.min n total)
  ∧ (n = 0 → detections_of r = [])
  ∧ (n < 0 → detections_of r = take (Z.to_nat (total + n)) matches
             ∧ Z.of_nat (length (detections_of r)) = Z.max (total + n) 0)
  ∧ ∀ dev, Detections.q_device_id q = Some dev → dev ≠ EmptyString →
      (∀ x, x ∈ all_detections s → Detection.deviceId x ≠ dev) →
      detections_of r = [].
Proof.
  intros Hq r matches total. subst r total. unfold Detections.GET.
  rewrite Hq, matching_listed. fold matches. simpl default.
  unfold detections_of, count_of, json. cbn [body status success].
  pose proof (slice0_length matches n) as Hlen.
  repeat split.
  - apply slice0_prefix.
  - apply sublist_filter.
  - by apply slice0_default_length.
  - rewrite Hlen. destruct (Z.ltb_spec n 0); [lia|done].
  - intros ->. apply nil_length_inv, Nat2Z.inj. rewrite Hlen.
    change (0 <? 0) with false. cbv iota. lia.
  - by apply slice0_negative.
  - rewrite Hlen. destruct (Z.ltb_spec n 0); [done|lia].
  - intros dev Hdev Hne Hno.
    assert (matches = []) as ->; [|apply take_nil].
    apply elem_of_nil_inv. intros x Hx.
    apply list_elem_of_filter in Hx as [[_ Hd] Hx].
    by apply (Hno x Hx), Hd.
Qed.

Lemma list_returns_prefix_of_matching_witness :
  length (listed (Some "cam-1") two_tigers) = 2%nat
  ∧ Z.of_nat (length (detections_of
       (Detections.GET (Detections.mkQuery (Some (PInt 1)) (Some "cam-1")) two_tigers)))
    = 1.
Proof.
  split; [vm_compute; reflexivity|].
  destruct (list_returns_prefix_of_matching
              (Detections.mkQuery (Some (PInt 1)) (Some "cam-1")) two_tigers 1 eq_refl)
    as (_ & _ & _ & _ & _ & H & _).
  destruct H as [_ H]; [discriminate|].
  etrans; [exact H|]. vm_compute. reflexivity.
Defined.

(** C5, the claim as stated fails: with two tigers stored, [limit = -1] is
    not answered with the empty sequence but with one detection. *)
Lemma negative_limit_is_not_empty :
  -1 ≤ 0
  ∧ length (detections_of
      (Detections.GET (Detections.mkQuery (Some (PInt (-1))) None) two_tigers)) = 1%nat
  ∧ detections_of
      (Detections.GET (Detections.mkQuery (Some (PInt (-1))) None) two_tigers) ≠ [].
Proof. split; [discriminate|]. split; [vm_compute; reflexivity|]. vm_compute. discriminate. Qed.

(** *** An accepted detection and its listing *)

Lemma isWildCat_nonempty (c : string) : isWildCat c = true → c ≠ EmptyString.
Proof. intros H ->. vm_compute in H. discriminate H. Qed.

Lemma truthy_nonempty (x : string) : x ≠ EmptyString → truthy (Some x) = Some x.
Proof. intros H. simpl. by destruct (String.eqb_spec x EmptyString). Qed.

(** C7, as amended: an authorized POST with a [device_id], an allow-listed
    class name (in any letter case) and a timestamp that [Date] can represent
    is answered with [success = true], an [event_id] and a [detection_id]; the
    record is stored in front of the store with the class name as sent, the
    confidence as sent and, for a device that is not registered, the raw
    device id as display name; and [GET /detections] for that device, with
    the default limit or any limit of at least 1, then lists it first. *)
Theorem accepted_detection_is_listed
    (now : Z) (req : DeviceDetections.Request) (s : State) (d c : string) :
  let p := DeviceDetections.payload req in
  DeviceDetections.authorized req = true →
  DeviceDetections.device_id p = Some d → d ≠ EmptyString →
  DeviceDetections.class_name p = Some c →
  isWildCat c = true →
  valid_timestamp (DeviceDetections.timestamp p) →
  let r := DeviceDetections.POST now req s in
  ∃ eid x,
    r.2 = mkResponse 200 (Recorded "Detection recorded" eid (Detection.id x))
    ∧ success (body r.2) = Some true
    ∧ Detection.eventId x = Some eid
    ∧ Detection.deviceId x = d
    ∧ Detection.className x = c
    ∧ Detection.confidence x = DeviceDetections.confidence p
    ∧ Detection.deviceName x = displayName (deviceStore s !! d) d
    ∧ (deviceStore s !! d = None → Detection.deviceName x = d)
    ∧ all_detections r.1 = x :: take 999 (all_detections s)
    ∧ ∀ limit, (limit = None ∨ ∃ n, limit = Some (PInt n) ∧ 1 ≤ n) →
        head (detections_of (Detections.GET (Detections.mkQuery limit (Some d)) r.1))
        = Some x.
Proof.
  intros p Ha Hd Hd' Hc Hw Hts r.
  destruct (valid_timestamp_Date _ Hts) as (v & _ & HD).
  pose proof (isWildCat_nonempty c Hw) as Hc'.
  set (eid := default ("det_" +:+ d +:+ "_" +:+ pretty now)
                      (truthy (DeviceDetections.event_id p))).
  set (x := DeviceDetections.mkDetection now p d c
              (displayName (deviceStore s !! d) d) eid (Some (v * 1000))).
  assert (r.2 = mkResponse 200 (Recorded "Detection recorded" eid (Detection.id x))
          ∧ all_detections r.1 = truncate 1000 (x :: all_detections s)) as [E1 E2].
  { subst r. unfold DeviceDetections.POST. fold p.
    rewrite Ha, Hd, Hc, (truthy_nonempty d Hd'), (truthy_nonempty c Hc'), Hw, HD.
    simpl. subst eid x.
    destruct (truthy (DeviceDetections.event_id p));
      destruct (deviceStore s !! d); simpl; by rewrite all_detections_insert. }
  exists eid, x. rewrite E1, E2, truncate_take. repeat split.
  - intros H. subst x. simpl. by rewrite H.
  - intros limit Hlimit.
    unfold Detections.GET, detections_of, Detections.matching, json.
    cbn [body Detections.q_limit Detections.q_device_id].
    rewrite (truthy_nonempty d Hd'), E2, truncate_take. simpl take.
    rewrite filter_cons_True by (simpl; by apply Is_true_true).
    rewrite filter_cons_True by done.
    assert (∃ n, default (PInt 50) limit = PInt n ∧ 1 ≤ n) as (n & -> & Hn).
    { destruct Hlimit as [->|(n & -> & Hn)]; [by exists 50|by exists n]. }
    simpl. destruct (Z.ltb_spec n 0); [lia|].
    destruct (Z.to_nat _) eqn:E; [|done]. lia.
Qed.

Lemma accepted_detection_is_listed_witness :
  ∃ eid x,
    (DeviceDetections.POST NOW post_Tiger init).2
      = mkResponse 200 (Recorded "Detection recorded" eid (Detection.id x))
    ∧ Detection.className x = "Tiger"
    ∧ Detection.confidence x = 0.92%Q
    ∧ Detection.deviceName x = "cam-1"
    ∧ detections_of (Detections.GET (Detections.mkQuery None (Some "cam-1"))
                       (DeviceDetections.POST NOW post_Tiger init).1) = [x].
Proof.
  destruct (accepted_detection_is_listed NOW post_Tiger init "cam-1" "Tiger")
    as (eid & x & E & _ & _ & _ & Hc & Hconf & _ & Hn & Hs & _);
    [reflexivity|reflexivity|discriminate|reflexivity|reflexivity| |].
  - exists T. split; [reflexivity|vm_compute; discriminate].
  - exists eid, x. repeat split; [exact E|exact Hc|exact Hconf|by apply Hn|].
    unfold Detections.GET, detections_of, Detections.matching, json.
    cbn [body Detections.q_limit Detections.q_device_id truthy String.eqb].
    rewrite Hs. simpl take.
    rewrite filter_cons_True by (rewrite Hc; by apply Is_true_true).
    rewrite filter_cons_True; [reflexivity|].
    vm_compute in E. injection E as _ E. vm_compute.
    destruct x. simpl in *. vm_compute in Hs. injection Hs as Hs. congruence.
Defined.

(** C7, the claim as stated fails: an authorized POST of a tiger with no
    timestamp, or with a timestamp beyond the range of [Date], is answered
    with 500 and nothing is stored. *)
Lemma accepted_species_needs_timestamp :
  isWildCat "Tiger" = true
  ∧ DeviceDetections.POST NOW
      (DeviceDetections.mkRequest true (detection_payload "cam-1" "Tiger" 0.92%Q None))
      init
    = (init, mkResponse 500 (Failure "Failed to record detection"))
  ∧ DeviceDetections.POST NOW
      (DeviceDetections.mkRequest true
         (detection_payload "cam-1" "Tiger" 0.92%Q (Some 10000000000000)))
      init
    = (init, mkResponse 500 (Failure "Failed to record detection")).
Proof. repeat split; vm_compute; reflexivity. Qed.

(** *** The two [count] fields *)


(** C10: the audit GET reports as [count] the number of matching log entries
    (the entries of the requested device, or all entries) before the cut to
    [limit], whatever the limit is, while [GET /detections] reports the number
    of detections it returns after the cut; with a limit [0 ≤ n] the audit GET
    returns the first [n] matching entries and still counts them all, and the
    listing returns the first [n] matching detections and counts only
    those. *)
Theorem count_before_and_after_limit
    (s : State) (aq : DeviceDetections.Query) (dq : Detections.Query) :
  let audit := DeviceDetections.GET aq s in
  let listing := Detections.GET dq s in
  let entries := logged (DeviceDetections.q_device_id aq) s in
  let matches := listed (Detections.q_device_id dq) s in
  count_of audit = Some (Z.of_nat (length entries))
  ∧ logs_of audit `prefix_of` entries
  ∧ (∀ n, DeviceDetections.q_limit aq = Some (PInt n) → 0 ≤ n →
       logs_of audit = take (Z.to_nat n) entries
       ∧ Z.of_nat (length (logs_of audit)) = Z.min n (Z.of_nat (length entries)))
  ∧ count_of listing = Some (Z.of_nat (length (detections_of listing)))
  ∧ detections_of listing `prefix_of` matches
  ∧ (∀ n, Detections.q_limit dq = Some (PInt n) → 0 ≤ n →
       detections_of listing = take (Z.to_nat n) matches
       ∧ count_of listing = Some (Z.min n (Z.of_nat (length matches)))).
Proof.
  intros audit listing entries matches. subst audit listing.
  unfold DeviceDetections.GET, Detections.GET, count_of, logs_of, detections_of.
  rewrite matching_logged, matching_listed. fold entries matches.
  cbn [json body]. repeat split.
  - apply slice0_prefix.
  - rewrite H. simpl default. by apply slice0_default_length.
  - rewrite H. simpl default. rewrite slice0_length.
    destruct (Z.ltb_spec n 0); [lia|done].
  - apply slice0_prefix.
  - rewrite H. simpl default. by apply slice0_default_length.
  - rewrite H. simpl default. rewrite slice0_length.
    destruct (Z.ltb_spec n 0); [lia|done].
Qed.

(** The two counts on the same two entries with [limit = 1]: the audit GET
    returns one log entry and reports 2, the listing returns one detection
    and reports 1. *)
Example counts_differ :
  let audit := DeviceDetections.GET
                 (DeviceDetections.mkQuery (Some "cam-1") (Some (PInt 1))) two_tigers in
  let listing := Detections.GET
                   (Detections.mkQuery (Some (PInt 1)) (Some "cam-1")) two_tigers in
  (length (logs_of audit) = 1%nat ∧ count_of audit = Some 2)
  ∧ (length (detections_of listing) = 1%nat ∧ count_of listing = Some 1).
Proof. repeat split; vm_compute; reflexivity. Qed.

(** *** Online devices *)

Lemma is_online_spec now d : is_true (Stats.is_online now d) ↔ seen_recently now d.
Proof.
  unfold Stats.is_online, seen_recently, getTime, is_true.
  destruct (Device.lastSeen d) as [t|].
  - rewrite Z.ltb_lt. split; [eauto|]. by intros (? & [= <-] & ?).
  - split; [done|]. by intros (? & ? & ?).
Qed.

Lemma online_count_insert getHours now s k d :
  deviceStore s !! k = None →
  DashboardStats.onlineDevices (Stats.stats getHours now (register k d s))
  = DashboardStats.onlineDevices (Stats.stats getHours now s)
    + (if decide (seen_recently now d) then 1 else 0).
Proof.
  intros Hk. unfold Stats.stats, register. cbn.
  rewrite (list_filter_iff _ (seen_recently now) ((map_to_list (<[k:=d]> _)).*2))
    by (intros x; rewrite <- is_online_spec; apply Is_true_true).
  rewrite (list_filter_iff _ (seen_recently now) ((map_to_list (deviceStore s)).*2))
    by (intros x; rewrite <- is_online_spec; apply Is_true_true).
  rewrite (map_to_list_insert _ _ _ Hk), fmap_cons.
  destruct (decide (seen_recently now d)).
  - rewrite filter_cons_True by done. rewrite length_cons. lia.
  - rewrite filter_cons_False by done. lia.
Qed.

(** C9: a device of the registry adds one to [onlineDevices] exactly when
    [now - lastSeen < 120 s]: registering a further device [d] raises the
    count by one if [d] was last seen less than 120000 ms before [now] and
    leaves it unchanged otherwise; so a device last seen 60 s ago is counted
    and one last seen 130 s ago is not. *)
Theorem online_iff_seen_within_120s
    (getHours : Z → Z) (now : Z) (s : State) (k : string) (d : Device.t) :
  deviceStore s !! k = None →
  let before := DashboardStats.onlineDevices (Stats.stats getHours now s) in
  let after := DashboardStats.onlineDevices (Stats.stats getHours now (register k d s)) in
  (after = before + 1 ↔ ∃ t, Device.lastSeen d = Some t ∧ now - t < 120000)
  ∧ (after = before ↔ ¬ ∃ t, Device.lastSeen d = Some t ∧ now - t < 120000)
  ∧ (Device.lastSeen d = Some (now - 60000) → after = before + 1)
  ∧ (Device.lastSeen d = Some (now - 130000) → after = before).
Proof.
  intros Hk before after. subst before after.
  rewrite (online_count_insert _ _ _ _ _ Hk).
  fold (seen_recently now d).
  destruct (decide (seen_recently now d)) as [H|H].
  - repeat split; try done; try lia.
    intros E. destruct H as (t & Ht & Hlt). rewrite Ht in E. injection E as ->. lia.
  - repeat split; try done; try lia.
    + intros E. exfalso. apply H. exists (now - 60000). split; [done|lia].
Qed.

Lemma online_iff_seen_within_120s_witness :
  DashboardStats.onlineDevices
    (Stats.stats Stats.utcHours NOW
       (register "cam-1"
          (Device.mk "cam-1" "North gate" offline (Some (NOW - 60000))
                     (DeviceStats.mk None)) init))
  = DashboardStats.onlineDevices (Stats.stats Stats.utcHours NOW init) + 1.
Proof.
  destruct (online_iff_seen_within_120s Stats.utcHours NOW init "cam-1"
              (Device.mk "cam-1" "North gate" offline (Some (NOW - 60000))
                         (DeviceStats.mk None)) eq_refl) as (_ & _ & H & _).
  apply H. reflexivity.
Defined.

(** *** The species invariant of the store *)

Lemma truncate_Forall {A} (P : A → Prop) n l : Forall P l → Forall P (truncate n l).
Proof. rewrite truncate_take. apply Forall_take. Qed.

Lemma loop_only_wild_cats clock d nm items acc a r :
  only_wild_cats acc →
  match Batch.loop clock d nm items acc a r with
  | Batch.Done l _ _ | Batch.Thrown l => only_wild_cats l
  end.
Proof.
  revert acc a r. induction items as [|det rest IH]; intros acc a r Hacc; simpl; [done|].
  destruct (Batch.class_name det) as [cn|]; [|done].
  destruct (isWildCat cn) eqn:Hw; simpl; [|by apply IH].
  destruct (toISOString _); [|done]. apply IH. by constructor.
Qed.

(** Whatever the requests are, also those that end in an exception, the store
    only ever holds allow-listed detections. *)
Lemma ingest_only_wild_cats now r s :
  only_wild_cats (all_detections s) →
  only_wild_cats (all_detections (ingest now r s).1).
Proof.
  intros Hs. destruct r as [req|clock req]; simpl.
  - destruct (single_store now req s) as [->|[_ ->]]; [|done].
    apply truncate_Forall, Forall_app. split; [|done].
    unfold created.
    destruct (DeviceDetections.authorized req); [|constructor].
    destruct (truthy (DeviceDetections.device_id _)); [|constructor].
    destruct (truthy (DeviceDetections.class_name _)) as [c|]; [|constructor].
    destruct (toISOString _); [|constructor].
    destruct (isWildCat c) eqn:Hw; repeat constructor. done.
  - unfold Batch.POST.
    destruct (Batch.authorized req); simpl; [|done].
    destruct (truthy (Batch.device_id _)) as [d|]; [|done].
    destruct (Batch.detections _) as [items|]; [|done].
    pose proof (loop_only_wild_cats clock d (displayName (deviceStore s !! d) d)
                  items (all_detections s) 0 0 Hs) as Hl.
    destruct (Batch.loop _ _ _ _ _ _ _) as [l a' r'|l]; simpl.
    + rewrite all_detections_insert. by apply truncate_Forall.
    + unfold all_detections in *. simpl.
      destruct (detectionStore s !! "all") eqn:E; [by rewrite lookup_insert_eq|].
      by rewrite E.
Qed.

Lemma run_only_wild_cats rs s :
  only_wild_cats (all_detections s) → only_wild_cats (all_detections (run rs s)).
Proof.
  revert s. induction rs as [|[now r] rest IH]; intros s Hs; simpl; [done|].
  by apply IH, ingest_only_wild_cats.
Qed.

(** *** The hourly histogram *)

Lemma in_hour_spec lo hi d : Is_true (Stats.in_hour lo hi d) ↔ stamped_in lo hi d.
Proof.
  unfold Stats.in_hour, stamped_in, getTime, ge_num, lt_num.
  destruct (Detection.timestamp d) as [t|]; simpl.
  - rewrite andb_True, !Is_true_true, Z.leb_le, Z.ltb_lt.
    split; [eauto|]. by intros (? & [= <-] & ?).
  - split; [done|]. by intros (? & ? & ?).
Qed.

Lemma hourBucket_spec getHours now detections i :
  Stats.hourBucket getHours now detections i = bucket_of getHours now detections i.
Proof.
  unfold Stats.hourBucket, bucket_of.
  replace (now - (i + 1) * 60 * 60 * 1000) with (now - (i + 1) * 3600000) by lia.
  replace (now - i * 60 * 60 * 1000) with (now - i * 3600000) by lia.
  do 3 f_equal. apply list_filter_iff. intros x. apply in_hour_spec.
Qed.

Lemma countdown_length n : length (Stats.countdown n) = S n.
Proof. induction n; simpl; congruence. Qed.

Lemma countdown_lookup (n i : nat) :
  (i ≤ n)%nat → Stats.countdown n !! (n - i)%nat = Some (Z.of_nat i).
Proof.
  induction n as [|n IH]; intros Hi.
  - by replace i with 0%nat by lia.
  - destruct (decide (i = S n)) as [->|Hne].
    + by rewrite Nat.sub_diag.
    + replace (S n - i)%nat with (S (n - i)) by lia. simpl. apply IH. lia.
Qed.

Lemma filter_only_wild_cats l :
  only_wild_cats l → filter (λ d, isWildCat (Detection.className d)) l = l.
Proof.
  induction 1 as [|x l Hx _ IH]; [done|].
  rewrite filter_cons_True by (by apply Is_true_true). by rewrite IH.
Qed.

(** C6: [hourlyDetections] has exactly 24 buckets, the oldest hour first;
    the bucket for [i] hours back ([i] from 23 down to 0) is labelled with the
    clock hour of its end [now - i h] and counts the detections with a
    timestamp in [[now - (i+1) h, now - i h)], taken from the whole list that
    the handler holds (the stored detections after the one species filter at
    the head of the handler, not the 24-hour subset); when the store holds
    only allow-listed detections, as ingestion guarantees, that list is the
    full stored set. *)
Theorem hourly_histogram (getHours : Z → Z) (now : Z) (s : State) :
  let hourly := DashboardStats.hourlyDetections (Stats.stats getHours now s) in
  let held := filter (λ d, isWildCat (Detection.className d)) (all_detections s) in
  length hourly = 24%nat
  ∧ (∀ i : nat, (i ≤ 23)%nat →
       hourly !! (23 - i)%nat = Some (bucket_of getHours now held (Z.of_nat i)))
  ∧ (only_wild_cats (all_detections s) →
     ∀ i : nat, (i ≤ 23)%nat →
       hourly !! (23 - i)%nat
       = Some (bucket_of getHours now (all_detections s) (Z.of_nat i))).
Proof.
  intros hourly held.
  assert (∀ i : nat, (i ≤ 23)%nat →
            hourly !! (23 - i)%nat = Some (bucket_of getHours now held (Z.of_nat i)))
    as H.
  { intros i Hi. subst hourly. unfold Stats.stats. cbn [DashboardStats.hourlyDetections].
    rewrite list_lookup_fmap, (countdown_lookup 23 i Hi). simpl.
    by rewrite hourBucket_spec. }
  split; [|split; [done|]].
  - subst hourly. unfold Stats.stats. cbn [DashboardStats.hourlyDetections].
    by rewrite length_fmap, countdown_length.
  - intros Hw i Hi. rewrite (H i Hi). subst held. by rewrite filter_only_wild_cats.
Qed.

Lemma hourly_histogram_witness :
  DashboardStats.hourlyDetections (Stats.stats Stats.utcHours NOW two_tigers) !! 23%nat
  = Some (HourBucket.mk "22:00" 2).
Proof.
  destruct (hourly_histogram Stats.utcHours NOW two_tigers) as (_ & _ & H).
  etrans; [exact (H (run_only_wild_cats _ init (Forall_nil_2 _)) 0%nat (Nat.le_0_l 23))|].
  vm_compute. reflexivity.
Defined.

(** The histogram is not cut to the 24-hour window of [totalDetections24h]: a
    detection stamped exactly 24 hours before [now] is outside that window
    (the comparison is strict) and is counted in the oldest bucket. *)
Example hourly_counts_outside_24h_window :
  let st := Stats.stats Stats.utcHours (T * 1000 + 86400000) (holding [sighting "tiger"]) in
  DashboardStats.totalDetections24h st = 0
  ∧ HourBucket.count <$> DashboardStats.hourlyDetections st !! 0%nat = Some 1.
Proof. split; vm_compute; reflexivity. Qed.

(** *** The class distribution *)

Lemma occurrences_snoc k' k names :
  occurrences k' (names ++ [k])
  = occurrences k' names + (if decide (k = k') then 1 else 0).
Proof.
  unfold occurrences. rewrite filter_app, length_app.
  destruct (decide (k = k')).
  - rewrite (filter_cons_True _ k []) by done. simpl. lia.
  - rewrite (filter_cons_False _ k []) by done. simpl. lia.
Qed.

Lemma occurrences_pos k names : k ∈ names → 1 ≤ occurrences k names.
Proof.
  intros H. unfold occurrences.
  assert (k ∈ filter (λ x, x = k) names) as Hk by (by apply list_elem_of_filter).
  destruct (filter _ names); [by apply elem_of_nil in Hk|simpl; lia].
Qed.

Lemma occurrences_zero k names : k ∉ names → occurrences k names = 0.
Proof.
  intros H. unfold occurrences.
  destruct (filter (λ x, x = k) names) as [|x l] eqn:E; [done|].
  assert (x ∈ filter (λ x, x = k) names) as Hx by (rewrite E; left).
  apply list_elem_of_filter in Hx as [-> Hx]. done.
Qed.

Lemma get_None o k : Stats.get o k = None ↔ k ∉ o.*1.
Proof.
  induction o as [|[k' v] o IH]; simpl.
  - split; [intros _; apply not_elem_of_nil|done].
  - rewrite not_elem_of_cons. destruct (String.eqb_spec k' k) as [->|Hne].
    + split; [done|]. by intros [? _].
    + rewrite IH. split; [by intros ?|by intros [_ ?]].
Qed.

Lemma get_Some o k v : Stats.get o k = Some v → (k, v) ∈ o.
Proof.
  induction o as [|[k' v'] o IH]; simpl; [done|].
  destruct (String.eqb_spec k' k) as [->|Hne].
  - intros [= ->]. left.
  - intros H. right. by apply IH.
Qed.

Lemma set_new o k v : k ∉ o.*1 → Stats.set o k v = o ++ [(k, v)].
Proof.
  induction o as [|[k' v'] o IH]; simpl; [done|].
  rewrite not_elem_of_cons. intros [Hne Hk].
  destruct (String.eqb_spec k' k); [done|]. by rewrite IH.
Qed.

Lemma set_keys o k v : k ∈ o.*1 → (Stats.set o k v).*1 = o.*1.
Proof.
  induction o as [|[k' v'] o IH]; [by intros ?%elem_of_nil|].
  cbn [Stats.set]. rewrite fmap_cons.
  destruct (String.eqb_spec k' k) as [->|Hne]; [done|].
  rewrite elem_of_cons. intros [?|Hk]; [done|]. rewrite !fmap_cons. f_equal. by apply IH.
Qed.

Lemma set_elem o k v k' c' :
  NoDup o.*1 → k ∈ o.*1 →
  (k', c') ∈ Stats.set o k v → (k' = k ∧ c' = v) ∨ (k' ≠ k ∧ (k', c') ∈ o).
Proof.
  induction o as [|[k0 v0] o IH]; simpl; [by intros _ ?%elem_of_nil|].
  rewrite NoDup_cons. intros [Hk0 Hnd].
  destruct (String.eqb_spec k0 k) as [->|Hne].
  - intros _. rewrite elem_of_cons. intros [[= -> ->]|Hin]; [by left|].
    right. split; [|by right]. intros ->. apply Hk0.
    apply list_elem_of_fmap. by exists (k, c').
  - rewrite elem_of_cons. intros [?|Hk]; [done|].
    rewrite elem_of_cons. intros [[= -> ->]|Hin].
    + right. split; [done|left].
    + destruct (IH Hnd Hk Hin) as [?|[? ?]]; [by left|]. right. split; [done|by right].
Qed.

Lemma tallied_nil : tallied [] [].
Proof.
  split; simpl.
  - constructor.
  - done.
  - by intros ? ? ?%elem_of_nil.
  - intros k1 k2 H. apply sublist_nil_r in H. done.
Qed.

Lemma tallied_step names o k :
  tallied names o →
  tallied (names ++ [k]) (Stats.set o k (or_number (Stats.get o k) 0 + 1)).
Proof.
  intros [Hnd Hkeys Hcount Horder].
  destruct (Stats.get o k) as [c|] eqn:Hget.
  - (* the name is already a key *)
    pose proof (get_Some _ _ _ Hget) as Hin.
    assert (k ∈ o.*1) as Hk by (apply list_elem_of_fmap; by exists (k, c)).
    pose proof (Hcount _ _ Hin) as Hc.
    pose proof (occurrences_pos k names (proj1 (Hkeys k) Hk)) as Hpos.
    assert (or_number (Some c) 0 = c) as ->.
    { simpl. destruct (Z.eqb_spec c 0); [lia|done]. }
    split.
    + by rewrite set_keys.
    + intros k'. rewrite set_keys, elem_of_app, list_elem_of_singleton, Hkeys by done.
      split; [by left|]. intros [?| ->]; [done|]. by apply Hkeys.
    + intros k' c' H. rewrite occurrences_snoc.
      destruct (set_elem _ _ _ _ _ Hnd Hk H) as [[E1 E2]|[Hne H']].
      * subst k' c'. rewrite decide_True by done. lia.
      * rewrite decide_False by done. rewrite (Hcount _ _ H'). lia.
    + intros k1 k2. rewrite set_keys by done. intros H.
      destruct (Horder _ _ H) as (pre & post & -> & Hpre).
      exists pre, (post ++ [k]). split; [|done]. by rewrite <- app_assoc.
  - (* the name is new *)
    apply get_None in Hget as Hk. rewrite set_new by done. simpl.
    assert (k ∉ names) as Hk' by (by rewrite <- Hkeys).
    split.
    + rewrite fmap_app. apply NoDup_app. split; [done|]. split.
      * intros x Hx. simpl. rewrite list_elem_of_singleton. by intros ->.
      * simpl. apply NoDup_singleton.
    + intros k'. rewrite fmap_app, !elem_of_app, Hkeys. done.
    + intros k' c' H. rewrite occurrences_snoc.
      apply elem_of_app in H as [H|H].
      * rewrite decide_False.
        -- rewrite (Hcount _ _ H). lia.
        -- intros ->. apply Hk. apply list_elem_of_fmap. by exists (k', c').
      * apply list_elem_of_singleton in H as [= -> ->].
        rewrite decide_True by done. rewrite occurrences_zero by done. done.
    + intros k1 k2. rewrite fmap_app. simpl. intros H.
      apply sublist_app_r in H as (l1 & l2 & E & H1 & H2).
      destruct l2 as [|y l2].
      * rewrite app_nil_r in E. subst l1.
        destruct (Horder _ _ H1) as (pre & post & -> & Hpre).
        exists pre, (post ++ [k]). split; [|done]. by rewrite <- app_assoc.
      * apply sublist_cons_r in H2 as [H2|(l' & [= -> ->] & H2)].
        { apply sublist_nil_r in H2. done. }
        apply sublist_nil_r in H2 as ->.
        destruct l1 as [|x [|x' l1]]; simpl in E.
        { done. }
        2:{ injection E as _ _ E. by destruct l1. }
        injection E as <- <-.
        assert (k1 ∈ names) as Hk1.
        { apply Hkeys. by apply singleton_sublist_l. }
        apply list_elem_of_split in Hk1 as (pre & post & ->).
        exists pre, (post ++ [k2]). split; [by rewrite <- app_assoc|].
        intros ?. apply Hk'. apply elem_of_app. by left.
Qed.

Lemma classDistribution_tallied (l : list Detection.t) :
  tallied (Detection.className <$> l) (Stats.classDistribution l).
Proof.
  unfold Stats.classDistribution.
  assert (∀ names o, tallied names o →
            tallied (names ++ (Detection.className <$> l))
              (fold_left (λ o d, Stats.set o (Detection.className d)
                           (or_number (Stats.get o (Detection.className d)) 0 + 1))
                         l o)) as H.
  { induction l as [|d l IH]; intros names o Ho; simpl.
    - by rewrite app_nil_r.
    - rewrite cons_middle, app_assoc. apply IH. by apply tallied_step. }
  apply (H [] []), tallied_nil.
Qed.

Lemma insert_entry_perm x l : Stats.insert_entry x l ≡ₚ x :: l.
Proof.
  induction l as [|y r IH]; simpl; [done|].
  destruct (0 <? y.2 - x.2); [|done]. rewrite IH. apply Permutation_swap.
Qed.

Lemma sort_entries_perm l : Stats.sort_entries l ≡ₚ l.
Proof.
  induction l as [|x r IH]; simpl; [done|]. by rewrite insert_entry_perm, IH.
Qed.

(** Where a pair of entries of [insert_entry x l] comes from, for [l] in
    descending order: both from [l], or [x] followed by a smaller or equal
    entry of [l], or a strictly greater entry of [l] followed by [x]. *)
Lemma insert_entry_pairs x l e1 e2 :
  (∀ a b, [a; b] `sublist_of` l → b.2 ≤ a.2) →
  [e1; e2] `sublist_of` Stats.insert_entry x l →
  [e1; e2] `sublist_of` l
  ∨ (e1 = x ∧ e2 ∈ l ∧ e2.2 ≤ x.2)
  ∨ (e2 = x ∧ e1 ∈ l ∧ x.2 < e1.2).
Proof.
  induction l as [|y r IH]; intros Hdesc; simpl.
  { intros H. apply sublist_length in H. simpl in H. lia. }
  assert (∀ a b, [a; b] `sublist_of` r → b.2 ≤ a.2) as Hr.
  { intros a b H. apply Hdesc. by apply sublist_cons. }
  destruct (Z.ltb_spec 0 (y.2 - x.2)) as [Hgt|Hle].
  - intros H. apply sublist_cons_r in H as [H|(l' & [= <- <-] & H)].
    + destruct (IH Hr H) as [?|[(? & ? & ?)|(? & ? & ?)]].
      * left. by apply sublist_cons.
      * right; left. repeat split; [done| |done]. by right.
      * right; right. repeat split; [done| |done]. by right.
    + apply singleton_sublist_l in H. rewrite insert_entry_perm in H.
      apply elem_of_cons in H as [->|H].
      * right; right. repeat split; [left|lia].
      * left. by apply sublist_skip, singleton_sublist_l.
  - intros H. apply sublist_cons_r in H as [H|(l' & [= <- <-] & H)]; [by left|].
    apply singleton_sublist_l in H. right; left. repeat split; [done|].
    apply elem_of_cons in H as [->|H]; [lia|].
    assert (e2.2 ≤ y.2); [|lia]. apply Hdesc. by apply sublist_skip, singleton_sublist_l.
Qed.

Lemma sort_entries_descending l e1 e2 :
  [e1; e2] `sublist_of` Stats.sort_entries l → e2.2 ≤ e1.2.
Proof.
  revert e1 e2. induction l as [|x r IH]; intros e1 e2; simpl.
  { intros H. apply sublist_nil_r in H. done. }
  intros H. destruct (insert_entry_pairs _ _ _ _ IH H)
    as [?|[(-> & ? & ?)|(-> & ? & ?)]]; [by apply IH|done|lia].
Qed.

(** The sort is stable: entries with equal counts keep their order. *)
Lemma sort_entries_stable l e1 e2 :
  [e1; e2] `sublist_of` Stats.sort_entries l → e1.2 = e2.2 →
  [e1; e2] `sublist_of` l.
Proof.
  revert e1 e2. induction l as [|x r IH]; intros e1 e2; simpl.
  { intros H. apply sublist_nil_r in H. done. }
  intros H Heq.
  destruct (insert_entry_pairs _ _ _ _ (sort_entries_descending r) H)
    as [?|[(-> & Hin & _)|(-> & _ & ?)]].
  - by apply sublist_cons, IH.
  - apply sublist_skip, singleton_sublist_l. by rewrite <- sort_entries_perm.
  - lia.
Qed.

Lemma gt_num_spec x d :
  Is_true (gt_num (getTime (Detection.timestamp d)) x) ↔ stamped_after x d.
Proof.
  unfold gt_num, getTime, stamped_after. destruct (Detection.timestamp d) as [t|].
  - rewrite Is_true_true, Z.ltb_lt. split; [eauto|]. by intros (? & [= <-] & ?).
  - split; [done|]. by intros (? & ? & ?).
Qed.

(** C8: [classDistribution] is the frequency table of the class names of
    the detections of the trailing 24 hours only: one entry per distinct
    class name (as spelled), with the number of its occurrences, the entries
    in descending order of count, and entries of equal count in the order in
    which their names are first met; the detections
    [tiger, lion, tiger, lion, tiger] give [{tiger: 3, lion: 2}]. *)
Theorem class_distribution_by_count (getHours : Z → Z) (now : Z) (s : State) :
  let dist := DashboardStats.classDistribution (Stats.stats getHours now s) in
  let names :=
    Detection.className <$>
      filter (stamped_after (now - 86400000))
        (filter (λ d, isWildCat (Detection.className d)) (all_detections s)) in
  NoDup dist.*1
  ∧ (∀ k, k ∈ dist.*1 ↔ k ∈ names)
  ∧ (∀ k c, (k, c) ∈ dist → c = occurrences k names)
  ∧ (∀ e1 e2, [e1; e2] `sublist_of` dist → e2.2 ≤ e1.2)
  ∧ (∀ e1 e2, [e1; e2] `sublist_of` dist → e1.2 = e2.2 →
       ∃ pre post, names = pre ++ e1.1 :: post ∧ e2.1 ∉ pre)
  ∧ DashboardStats.classDistribution
      (Stats.stats getHours NOW
         (holding (sighting <$> ["tiger"; "lion"; "tiger"; "lion"; "tiger"])))
    = [("tiger", 3); ("lion", 2)].
Proof.
  intros dist names.
  set (d24 := filter (stamped_after (now - 86400000))
                (filter (λ d, isWildCat (Detection.className d)) (all_detections s))).
  assert (dist = Stats.sort_entries (Stats.classDistribution d24)) as ->.
  { subst dist d24. unfold Stats.stats. cbn [DashboardStats.classDistribution].
    do 2 f_equal. apply list_filter_iff. intros x.
    replace (now - 24 * 60 * 60 * 1000) with (now - 86400000) by lia.
    apply gt_num_spec. }
  destruct (classDistribution_tallied d24) as [Hnd Hkeys Hcount Horder].
  fold names in Hkeys, Hcount, Horder.
  pose proof (sort_entries_perm (Stats.classDistribution d24)) as Hp.
  repeat split.
  - by rewrite Hp.
  - rewrite Hp. apply Hkeys.
  - rewrite Hp. apply Hkeys.
  - intros k c. rewrite Hp. apply Hcount.
  - intros e1 e2. apply sort_entries_descending.
  - intros e1 e2 H Heq. apply (Horder e1.1 e2.1).
    apply (fmap_sublist fst [e1; e2]). by apply sort_entries_stable.
Qed.

Lemma class_distribution_by_count_witness :
  occurrences "tiger"
    (Detection.className <$>
       filter (stamped_after (NOW - 86400000))
         (filter (λ d, isWildCat (Detection.className d))
            (all_detections
               (holding (sighting <$> ["lion"; "tiger"; "lion"; "tiger"; "puma"])))))
  = 2.
Proof.
  destruct (class_distribution_by_count Stats.utcHours NOW
              (holding (sighting <$> ["lion"; "tiger"; "lion"; "tiger"; "puma"])))
    as (_ & _ & H & _).
  symmetry. apply H. apply list_elem_of_In. vm_compute. tauto.
Defined.

(** Equal counts keep the order of first encounter, and a larger count met
    later moves to the front; class names are counted as spelled. *)
Example class_distribution_ties :
  DashboardStats.classDistribution
    (Stats.stats Stats.utcHours NOW
       (holding (sighting <$> ["lion"; "tiger"; "puma"; "Tiger"; "tiger"; "lion";
                               "puma"; "puma"])))
  = [("puma", 3); ("lion", 2); ("tiger", 2); ("Tiger", 1)].
Proof. vm_compute. reflexivity. Qed.

Lemma count_before_and_after_limit_witness :
  length (logged (Some "cam-1") two_tigers) = 2%nat
  ∧ length (listed (Some "cam-1") two_tigers) = 2%nat
  ∧ count_of (DeviceDetections.GET
                (DeviceDetections.mkQuery (Some "cam-1") (Some (PInt 1))) two_tigers)
    = Some 2
  ∧ length (logs_of (DeviceDetections.GET
                (DeviceDetections.mkQuery (Some "cam-1") (Some (PInt 1))) two_tigers))
    = 1%nat
  ∧ count_of (Detections.GET
                (Detections.mkQuery (Some (PInt 1)) (Some "cam-1")) two_tigers)
    = Some 1.
Proof.
  destruct (count_before_and_after_limit two_tigers
              (DeviceDetections.mkQuery (Some "cam-1") (Some (PInt 1)))
              (Detections.mkQuery (Some (PInt 1)) (Some "cam-1")))
    as (H1 & _ & H2 & _ & _ & H3).
  destruct (H2 1 eq_refl) as [H2' _]; [discriminate|].
  destruct (H3 1 eq_refl) as [_ H3']; [discriminate|].
  split; [vm_compute; reflexivity|]. split; [vm_compute; reflexivity|].
  split; [etrans; [exact H1|vm_compute; reflexivity]|].
  split; [rewrite H2'; vm_compute; reflexivity|].
  etrans; [exact H3'|vm_compute; reflexivity].
Defined.

(** ** Further properties of the routes *)

(** *** Responses and what they leave behind *)

Ltac answered :=
  simpl; repeat split; intros; auto 6; try done;
  repeat match goal with H : _ ∨ _ |- _ => destruct H end; try done.

(** X1: the single-detection POST answers 200, 400, 401 or 500; its
    [success] flag is true exactly on 200; an unauthorized request is answered
    401 whatever its body; and every answer other than 200 leaves the whole
    state (devices, detections, audit log, broadcasts) as it was. *)
Theorem single_post_all_or_nothing
    (now : Z) (req : DeviceDetections.Request) (s : State) :
  let r := DeviceDetections.POST now req s in
  (status r.2 = 200 ∨ status r.2 = 400 ∨ status r.2 = 401 ∨ status r.2 = 500)
  ∧ (success (body r.2) = Some true ↔ status r.2 = 200)
  ∧ (DeviceDetections.authorized req = false → status r.2 = 401)
  ∧ (status r.2 ≠ 200 → r.1 = s).
Proof.
  unfold DeviceDetections.POST.
  destruct (DeviceDetections.authorized req); [|answered].
  destruct (truthy (DeviceDetections.device_id _)) as [d|]; [|answered].
  destruct (truthy (DeviceDetections.class_name _)) as [c|]; [|answered].
  destruct (isWildCat c); [|answered]. simpl.
  destruct (toISOString _) as [iso|]; [|answered].
  destruct (truthy (DeviceDetections.event_id _));
    destruct (deviceStore s !! d); answered.
Qed.

Lemma loop_extends clock d nm items acc a r :
  match Batch.loop clock d nm items acc a r with
  | Batch.Done l _ _ | Batch.Thrown l => acc `suffix_of` l
  end.
Proof.
  revert acc a r. induction items as [|det rest IH]; intros acc a r; simpl; [done|].
  destruct (Batch.class_name det) as [cn|]; [|done].
  destruct (isWildCat cn); simpl; [|apply IH].
  destruct (toISOString _) as [iso|]; [|done].
  specialize (IH (Batch.mkDetection (clock a) d nm det cn iso a :: acc) (a + 1) r).
  destruct (Batch.loop _ _ _ _ _ _ _); (etrans; [apply suffix_cons_r|]; done).
Qed.

(** X2: the batch POST answers 200, 400, 401 or 500, with [success] true
    exactly on 200.  A 400 or 401 leaves the whole state as it was.  A 500
    (an item on which the loop raised) leaves every device record as it was,
    but the detections unshifted before the exception may stay: the stored
    detections of before are then a suffix of the stored detections. *)
Theorem batch_post_failures
    (clock : Z → Z) (now : Z) (req : Batch.Request) (s : State) :
  let r := Batch.POST clock now req s in
  (status r.2 = 200 ∨ status r.2 = 400 ∨ status r.2 = 401 ∨ status r.2 = 500)
  ∧ (success (body r.2) = Some true ↔ status r.2 = 200)
  ∧ (Batch.authorized req = false → status r.2 = 401)
  ∧ (status r.2 = 400 ∨ status r.2 = 401 → r.1 = s)
  ∧ (status r.2 = 500 →
       deviceStore r.1 = deviceStore s
       ∧ all_detections s `suffix_of` all_detections r.1).
Proof.
  unfold Batch.POST.
  destruct (Batch.authorized req); [|answered].
  destruct (truthy (Batch.device_id _)) as [d|]; [|answered].
  destruct (Batch.detections _) as [items|]; [|answered]. simpl.
  pose proof (loop_extends clock d (displayName (deviceStore s !! d) d) items
                (all_detections s) 0 0) as Hl.
  destruct (Batch.loop _ _ _ _ _ _ _) as [l a r|l]; [answered|].
  answered. unfold all_detections in *. simpl.
  destruct (detectionStore s !! "all") eqn:E; [by rewrite lookup_insert_eq|].
  by rewrite E.
Qed.

(** X3: the batch POST never writes an audit entry and never broadcasts,
    whatever the request and however it is answered; and it never changes the
    status, the name or the id of a device record. *)
Theorem batch_post_never_audits_or_broadcasts
    (clock : Z → Z) (now : Z) (req : Batch.Request) (s : State) :
  let s' := (Batch.POST clock now req s).1 in
  detectionEventLog s' = detectionEventLog s
  ∧ broadcasts s' = broadcasts s
  ∧ ∀ d dev, deviceStore s !! d = Some dev →
      ∃ dev', deviceStore s' !! d = Some dev'
        ∧ Device.status dev' = Device.status dev
        ∧ Device.name dev' = Device.name dev
        ∧ Device.id dev' = Device.id dev.
Proof.
  unfold Batch.POST.
  destruct (Batch.authorized req); simpl; [|by eauto 10].
  destruct (truthy (Batch.device_id _)) as [d0|]; [|simpl; by eauto 10].
  destruct (Batch.detections _) as [items|]; [|simpl; by eauto 10].
  destruct (Batch.loop _ _ _ _ _ _ _) as [l a r|l]; simpl; [|by eauto 10].
  repeat split. intros d dev Hd.
  destruct (deviceStore s !! d0) as [dev0|] eqn:E0; [|by eauto 10].
  destruct (decide (d0 = d)) as [->|Hne].
  - rewrite lookup_insert_eq. simplify_eq. eauto.
  - rewrite lookup_insert_ne by done. eauto 10.
Qed.

(** *** The audit log *)

(** The entry that an accepted single detection logs. *)
Lemma single_recorded_log now req s :
  status (DeviceDetections.POST now req s).2 = 200 →
  let p := DeviceDetections.payload req in
  ∃ d c eid did,
    truthy (DeviceDetections.device_id p) = Some d
    ∧ truthy (DeviceDetections.class_name p) = Some c
    ∧ body (DeviceDetections.POST now req s).2 = Recorded "Detection recorded" eid did
    ∧ detectionEventLog (DeviceDetections.POST now req s).1
      = AuditEntry.mk eid d (Some now) "detection_received"
          {| Details.className := c;
             Details.confidence := DeviceDetections.confidence p;
             Details.hasImage :=
               bool_decide (is_Some (truthy (DeviceDetections.image_base64 p)));
             Details.cameraId := DeviceDetections.camera_id p;
             Details.location := Location.name <$> DeviceDetections.location p;
             Details.priority := DeviceDetections.metadata p ≫= Metadata.priority |}
        :: take 999 (detectionEventLog s).
Proof.
  intros Hst p. revert Hst. unfold DeviceDetections.POST. fold p.
  destruct (DeviceDetections.authorized req); simpl; [|done].
  destruct (truthy (DeviceDetections.device_id p)) as [d|]; [|done].
  destruct (truthy (DeviceDetections.class_name p)) as [c|]; [|done].
  destruct (isWildCat c); simpl; [|done].
  destruct (toISOString _) as [iso|]; [|done]. intros _.
  exists d, c. do 2 eexists. split; [done|]. split; [done|].
  destruct (deviceStore s !! d); simpl; (split; [done|]);
    unfold DeviceDetections.logDetectionEvent; by rewrite truncate_take.
Qed.

(** Every request leaves the audit log as it was or puts one entry in front
    of it. *)
Lemma ingest_audit_log now r s :
  detectionEventLog (ingest now r s).1 = detectionEventLog s
  ∨ ∃ e, detectionEventLog (ingest now r s).1 = e :: take 999 (detectionEventLog s).
Proof.
  destruct r as [req|clock req]; simpl.
  - destruct (decide (status (DeviceDetections.POST now req s).2 = 200)) as [H|H].
    + destruct (single_recorded_log now req s H) as (? & ? & ? & ? & _ & _ & _ & Hlog).
      right. eauto.
    + left. revert H. unfold DeviceDetections.POST.
      destruct (DeviceDetections.authorized req); simpl; [|done].
      destruct (truthy (DeviceDetections.device_id _)) as [d|]; [|done].
      destruct (truthy (DeviceDetections.class_name _)) as [c|]; [|done].
      destruct (isWildCat c); simpl; [|done].
      destruct (toISOString _) as [iso|]; [|done].
      by destruct (deviceStore s !! d).
  - unfold Batch.POST.
    destruct (Batch.authorized req); simpl; [|by left].
    destruct (truthy (Batch.device_id _)) as [d|]; [|by left].
    destruct (Batch.detections _) as [items|]; [|by left].
    destruct (Batch.loop _ _ _ _ _ _ _); by left.
Qed.

(** X4: a single-detection POST answered 200 puts one entry in front of the
    audit log (the log keeps its other entries, up to 999 of them): the entry
    has the [event_id] of the response, the device id and class name of the
    payload as sent, the confidence, the action [detection_received] and the
    time of processing, and says whether an image came with the payload; the
    audit GET for that device, with the default limit or a limit of at least
    1, then returns this entry first. *)
Theorem recorded_detection_is_audited
    (now : Z) (req : DeviceDetections.Request) (s : State) :
  status (DeviceDetections.POST now req s).2 = 200 →
  let p := DeviceDetections.payload req in
  let s' := (DeviceDetections.POST now req s).1 in
  ∃ e did,
    body (DeviceDetections.POST now req s).2
      = Recorded "Detection recorded" (AuditEntry.eventId e) did
    ∧ detectionEventLog s' = e :: take 999 (detectionEventLog s)
    ∧ DeviceDetections.device_id p = Some (AuditEntry.deviceId e)
    ∧ DeviceDetections.class_name p = Some (Details.className (AuditEntry.details e))
    ∧ Details.confidence (AuditEntry.details e) = DeviceDetections.confidence p
    ∧ AuditEntry.action e = "detection_received"
    ∧ AuditEntry.timestamp e = Some now
    ∧ (Details.hasImage (AuditEntry.details e) = true
       ↔ ∃ img, DeviceDetections.image_base64 p = Some img ∧ img ≠ EmptyString)
    ∧ ∀ limit, (limit = None ∨ ∃ n, limit = Some (PInt n) ∧ 1 ≤ n) →
        head (logs_of (DeviceDetections.GET
                (DeviceDetections.mkQuery (Some (AuditEntry.deviceId e)) limit) s'))
        = Some e.
Proof.
  intros Hst p s'.
  destruct (single_recorded_log now req s Hst) as (d & c & eid & did & Hd & Hc & Hb & Hlog).
  fold p in Hd, Hc, Hlog. fold s' in Hlog.
  apply truthy_Some in Hd as [Hd Hd']. apply truthy_Some in Hc as [Hc Hc'].
  match type of Hlog with _ = ?e :: _ => exists e, did end.
  split; [exact Hb|]. split; [exact Hlog|]. simpl.
  repeat split; try done.
  - rewrite bool_decide_eq_true. intros [img Himg].
    apply truthy_Some in Himg as [? ?]. eauto.
  - rewrite bool_decide_eq_true. intros (img & -> & Himg).
    rewrite (truthy_nonempty img Himg). eauto.
  - intros limit Hlimit.
    assert (∃ n, default (PInt 100) limit = PInt n ∧ 1 ≤ n) as (n & Hn & Hn1).
    { destruct Hlimit as [->|(n & -> & Hn)]; [by exists 100|by exists n]. }
    unfold DeviceDetections.GET, DeviceDetections.matching, logs_of, json.
    cbn [body DeviceDetections.q_limit DeviceDetections.q_device_id].
    rewrite (truthy_nonempty d Hd'), Hn, Hlog.
    rewrite filter_cons_True by done.
    simpl. destruct (Z.ltb_spec n 0); [lia|].
    destruct (Z.to_nat _) eqn:E; [|done]. lia.
Qed.

Lemma recorded_detection_is_audited_witness :
  ∃ e, detectionEventLog (DeviceDetections.POST NOW post_Tiger init).1 = [e]
       ∧ AuditEntry.deviceId e = "cam-1"
       ∧ Details.className (AuditEntry.details e) = "Tiger".
Proof.
  destruct (recorded_detection_is_audited NOW post_Tiger init eq_refl)
    as (e & did & _ & Hlog & Hd & Hc & _).
  exists e. split; [exact Hlog|]. split.
  - injection Hd as Hd. symmetry. exact Hd.
  - injection Hc as Hc. symmetry. exact Hc.
Defined.

Lemma run_audit_log_bounded rs s :
  (length (detectionEventLog s) ≤ 1000)%nat →
  (length (detectionEventLog (run rs s)) ≤ 1000)%nat.
Proof.
  revert s. induction rs as [|[now r] rest IH]; intros s Hs; simpl; [done|].
  apply IH. destruct (ingest_audit_log now r s) as [->|[e ->]]; [done|].
  simpl. rewrite length_take. lia.
Qed.

(** X5: the audit log never holds more than 1000 entries: if it holds at
    most 1000, then after every run of single and batch POSTs, whatever the
    requests are and also when handlers are left by an exception, it still
    holds at most 1000; and no request takes more than the oldest entries
    away: the log of before, cut to its 999 most recent entries, is a suffix
    of the log after a request that logs, and the log is unchanged otherwise. *)
Theorem audit_log_bounded (rs : list (Z * Ingest)) (s : State) :
  (length (detectionEventLog s) ≤ 1000)%nat →
  (length (detectionEventLog (run rs s)) ≤ 1000)%nat
  ∧ ∀ now r,
      detectionEventLog (ingest now r (run rs s)).1 = detectionEventLog (run rs s)
      ∨ ∃ e, detectionEventLog (ingest now r (run rs s)).1
             = e :: take 999 (detectionEventLog (run rs s)).
Proof.
  intros Hs. split; [by apply run_audit_log_bounded|].
  intros now r. apply ingest_audit_log.
Qed.

Lemma audit_log_bounded_witness :
  (length (detectionEventLog
             (run [(NOW, BatchOf (steady NOW) (batch "cam-1" (tigers 1001)));
                   ((NOW + 1000)%Z, Single post_Tiger)] init)) ≤ 1000)%nat.
Proof.
  apply (audit_log_bounded [(NOW, BatchOf (steady NOW) (batch "cam-1" (tigers 1001)));
                            (NOW + 1000, Single post_Tiger)] init).
  vm_compute. apply Nat.le_0_l.
Defined.

(** What one single-detection POST does to the store and the log together:
    nothing, or one detection in front of the store and the entry that
    describes it in front of the log. *)
Lemma single_store_and_log now req s :
  (DeviceDetections.POST now req s).1 = s
  ∨ ∃ x e, mirrors x e
      ∧ all_detections (DeviceDetections.POST now req s).1
        = take 1000 (x :: all_detections s)
      ∧ detectionEventLog (DeviceDetections.POST now req s).1
        = take 1000 (e :: detectionEventLog s).
Proof.
  unfold DeviceDetections.POST.
  destruct (DeviceDetections.authorized req); simpl; [|by left].
  destruct (truthy (DeviceDetections.device_id _)) as [d|]; [|by left].
  destruct (truthy (DeviceDetections.class_name _)) as [c|]; [|by left].
  destruct (isWildCat c); simpl; [|by left].
  destruct (toISOString _) as [iso|]; [|by left]. right.
  destruct (deviceStore s !! d); simpl; do 2 eexists;
    rewrite all_detections_insert; unfold DeviceDetections.logDetectionEvent;
    rewrite !truncate_take; (split; [|split; reflexivity]); by repeat split.
Qed.

(** X6: as long as only the single-detection route is used, the audit log
    mirrors the detection store entry by entry: starting from the empty
    state, after every run of single POSTs the two have the same length and
    the i-th audit entry has the event id, device id, class name, confidence
    and camera id of the i-th stored detection. *)
Theorem audit_log_mirrors_store (rs : list (Z * Ingest)) :
  single_only rs →
  Forall2 mirrors (all_detections (run rs init)) (detectionEventLog (run rs init)).
Proof.
  assert (∀ s, Forall2 mirrors (all_detections s) (detectionEventLog s) →
               single_only rs →
               Forall2 mirrors (all_detections (run rs s))
                       (detectionEventLog (run rs s))) as H.
  { induction rs as [|[now r] rest IH]; intros s Hs Hrs; simpl; [done|].
    apply Forall_cons in Hrs as [[req Hr] Hrs]. simpl in Hr. subst r.
    apply IH; [|done]. simpl.
    destruct (single_store_and_log now req s) as [->|(x & e & Hm & -> & ->)]; [done|].
    apply Forall2_take. by constructor. }
  apply H. constructor.
Qed.

Lemma audit_log_mirrors_store_witness :
  Forall2 mirrors (all_detections two_tigers) (detectionEventLog two_tigers).
Proof.
  apply (audit_log_mirrors_store [(NOW, Single post_Tiger); (NOW + 1000, Single post_Tiger)]).
  repeat constructor; eexists; reflexivity.
Defined.

(** *** Device records *)

Lemma or_number_Some_0 v : or_number (Some v) 0 = v.
Proof. simpl. destruct (Z.eqb_spec v 0); congruence. Qed.

Lemma counter_single_touch now dev :
  counter (DeviceDetections.touch now dev) = counter dev + 1.
Proof. unfold counter. simpl DeviceStats.detectionCount. apply or_number_Some_0. Qed.

Lemma counter_batch_touch now a dev :
  counter (Batch.touch now a dev) = counter dev + a.
Proof. unfold counter. simpl DeviceStats.detectionCount. apply or_number_Some_0. Qed.

Lemma detectionsOf_deviceId clock d nm k items :
  Forall (λ x, Detection.deviceId x = d) (detectionsOf clock d nm k items).
Proof.
  revert k. induction items as [|det rest IH]; intros k; simpl; [constructor|].
  destruct (Batch.class_name det) as [cn|]; [|apply IH].
  destruct (isWildCat cn); [|apply IH]. constructor; [done|apply IH].
Qed.

(** Every detection that a request inserts carries the device id of the
    request. *)
Lemma inserted_device now r s x :
  x ∈ inserted now r s → target r = Some (Detection.deviceId x).
Proof.
  destruct r as [req|clock req]; simpl.
  - unfold created.
    destruct (DeviceDetections.authorized req); [|by intros ?%elem_of_nil].
    destruct (truthy (DeviceDetections.device_id _)) as [d|]; [|by intros ?%elem_of_nil].
    destruct (truthy (DeviceDetections.class_name _)) as [c|]; [|by intros ?%elem_of_nil].
    destruct (toISOString _) as [iso|]; [|by intros ?%elem_of_nil].
    destruct (isWildCat c); [|by intros ?%elem_of_nil].
    simpl. by intros ->%list_elem_of_singleton.
  - destruct (Batch.authorized req); [|by intros ?%elem_of_nil].
    destruct (truthy (Batch.device_id _)) as [d|]; [|by intros ?%elem_of_nil].
    destruct (Batch.detections _) as [items|]; [|by intros ?%elem_of_nil].
    intros Hx.
    pose proof (detectionsOf_deviceId clock d (displayName (deviceStore s !! d) d) 0 items) as H.
    rewrite Forall_forall in H. by rewrite (H x Hx).
Qed.

(** What one request that completes does to the record of a registered
    device: the record stays, with its id and name; its counter grows by the
    number of detections inserted for it; and it is not touched at all by a
    request for another device. *)
Lemma ingest_device_record now r s d dev :
  deviceStore s !! d = Some dev →
  status (ingest now r s).2 ≠ 500 →
  ∃ dev', deviceStore (ingest now r s).1 !! d = Some dev'
    ∧ Device.id dev' = Device.id dev
    ∧ Device.name dev' = Device.name dev
    ∧ (target r ≠ Some d → dev' = dev)
    ∧ counter dev'
      = counter dev
        + Z.of_nat (length (filter (λ x, Detection.deviceId x = d) (inserted now r s))).
Proof.
  intros Hd. destruct r as [req|clock req]; simpl.
  - unfold DeviceDetections.POST, created.
    destruct (DeviceDetections.authorized req); simpl; [|intros _; exists dev; by rewrite Z.add_0_r].
    destruct (truthy (DeviceDetections.device_id _)) as [d0|];
      [|intros _; exists dev; by rewrite Z.add_0_r].
    destruct (truthy (DeviceDetections.class_name _)) as [c|];
      [|intros _; exists dev; by rewrite Z.add_0_r].
    destruct (isWildCat c); simpl;
      [|intros _; exists dev; destruct (toISOString _); by rewrite Z.add_0_r].
    destruct (toISOString _) as [iso|]; [|done]. intros _.
    destruct (decide (d0 = d)) as [->|Hne].
    + rewrite Hd. simpl. rewrite lookup_insert_eq.
      exists (DeviceDetections.touch now dev). repeat split; [done|].
      rewrite filter_cons_True by done. simpl. apply counter_single_touch.
    + change (option_list (Some ?x)) with [x].
      rewrite filter_cons_False by done. simpl. rewrite Z.add_0_r.
      exists dev. destruct (deviceStore s !! d0); simpl;
        rewrite ?lookup_insert_ne by done; done.
  - unfold Batch.POST.
    destruct (Batch.authorized req); simpl; [|intros _; exists dev; by rewrite Z.add_0_r].
    destruct (truthy (Batch.device_id _)) as [d0|];
      [|intros _; exists dev; by rewrite Z.add_0_r].
    destruct (Batch.detections _) as [items|];
      [|intros _; exists dev; by rewrite Z.add_0_r].
    destruct (Batch.loop _ _ _ _ _ _ _) as [l a r|l] eqn:Hloop; simpl; [|done].
    intros _. apply loop_Done in Hloop as (_ & -> & _).
    pose proof (detectionsOf_deviceId clock d0 (displayName (deviceStore s !! d0) d0) 0 items) as H.
    destruct (decide (d0 = d)) as [->|Hne].
    + rewrite Hd in *. rewrite lookup_insert_eq. eexists.
      repeat split; [congruence|].
      rewrite counter_batch_touch, Z.add_0_l, (filter_all _ _ H).
      by rewrite detectionsOf_length.
    + rewrite (filter_none (λ x, Detection.deviceId x = d))
        by (eapply Forall_impl; [exact H|]; simpl; congruence).
      simpl length. rewrite Z.add_0_r. exists dev.
      destruct (deviceStore s !! d0); rewrite ?lookup_insert_ne by done;
        repeat split; done.
Qed.

(** No request registers a device. *)
Lemma ingest_device_absent now r s d :
  deviceStore s !! d = None → deviceStore (ingest now r s).1 !! d = None.
Proof.
  intros Hd. destruct r as [req|clock req]; simpl.
  - unfold DeviceDetections.POST.
    destruct (DeviceDetections.authorized req); simpl; [|done].
    destruct (truthy (DeviceDetections.device_id _)) as [d0|]; [|done].
    destruct (truthy (DeviceDetections.class_name _)) as [c|]; [|done].
    destruct (isWildCat c); simpl; [|done].
    destruct (toISOString _) as [iso|]; [|done].
    destruct (deviceStore s !! d0) eqn:E; simpl; [|done].
    rewrite lookup_insert_ne; [done|]. congruence.
  - unfold Batch.POST.
    destruct (Batch.authorized req); simpl; [|done].
    destruct (truthy (Batch.device_id _)) as [d0|]; [|done].
    destruct (Batch.detections _) as [items|]; [|done].
    destruct (Batch.loop _ _ _ _ _ _ _); simpl; [|done].
    destruct (deviceStore s !! d0) eqn:E; simpl; [|done].
    rewrite lookup_insert_ne; [done|]. congruence.
Qed.

(** A request for one device does not touch the record of another, however
    it is answered. *)
Lemma ingest_other_device now r s d :
  target r ≠ Some d → deviceStore (ingest now r s).1 !! d = deviceStore s !! d.
Proof.
  destruct r as [req|clock req]; simpl.
  - unfold DeviceDetections.POST.
    destruct (DeviceDetections.authorized req); simpl; [|done].
    destruct (truthy (DeviceDetections.device_id _)) as [d0|]; [|done].
    destruct (truthy (DeviceDetections.class_name _)) as [c|]; [|done].
    destruct (isWildCat c); simpl; [|done].
    destruct (toISOString _) as [iso|]; [|done]. intros Hne.
    destruct (deviceStore s !! d0); simpl; [|done].
    rewrite lookup_insert_ne; [done|]. congruence.
  - unfold Batch.POST.
    destruct (Batch.authorized req); simpl; [|done].
    destruct (truthy (Batch.device_id _)) as [d0|]; [|done].
    destruct (Batch.detections _) as [items|]; [|done].
    destruct (Batch.loop _ _ _ _ _ _ _); simpl; [|done]. intros Hne.
    destruct (deviceStore s !! d0); simpl; [|done].
    rewrite lookup_insert_ne; [done|]. congruence.
Qed.

Lemma ingest_registered now r s d :
  is_Some (deviceStore (ingest now r s).1 !! d) ↔ is_Some (deviceStore s !! d).
Proof.
  destruct (decide (target r = Some d)) as [Ht|Ht];
    [|by rewrite ingest_other_device].
  destruct (deviceStore s !! d) as [dev|] eqn:Hd.
  - split; [eauto|]. intros _. revert Ht. destruct r as [req|clock req]; simpl.
    + unfold DeviceDetections.POST. intros ->.
      destruct (DeviceDetections.authorized req); simpl; [|by rewrite Hd].
      destruct (truthy (DeviceDetections.class_name _)) as [c|];
        [|simpl; by rewrite Hd].
      destruct (isWildCat c); simpl; [|by rewrite Hd].
      destruct (toISOString _) as [iso|]; [|simpl; by rewrite Hd].
      rewrite Hd. simpl. rewrite lookup_insert_eq. eauto.
    + unfold Batch.POST. intros ->.
      destruct (Batch.authorized req); simpl; [|by rewrite Hd].
      destruct (Batch.detections _) as [items|]; [|simpl; by rewrite Hd].
      destruct (Batch.loop _ _ _ _ _ _ _); simpl; [|by rewrite Hd].
      rewrite Hd, lookup_insert_eq. eauto.
  - by rewrite (ingest_device_absent _ _ _ _ Hd).
Qed.

Lemma run_registered rs s d :
  is_Some (deviceStore (run rs s) !! d) ↔ is_Some (deviceStore s !! d).
Proof.
  revert s. induction rs as [|[now r] rest IH]; intros s; simpl; [done|].
  by rewrite IH, ingest_registered.
Qed.

(** X7: ingestion never registers and never removes a device: after every
    run of single and batch POSTs, however they are answered, the registry
    has exactly the device ids it had (so the detections of an unknown device
    create no record); and a request never changes the record of a device
    other than the one it names. *)
Theorem ingestion_keeps_registry (rs : list (Z * Ingest)) (s : State) :
  dom (deviceStore (run rs s)) = dom (deviceStore s)
  ∧ ∀ now r d, target r ≠ Some d →
      deviceStore (ingest now r s).1 !! d = deviceStore s !! d.
Proof.
  split.
  - apply set_eq. intros d. rewrite !elem_of_dom. apply run_registered.
  - intros now r d. apply ingest_other_device.
Qed.

(** X8: the detection counter of a registered device counts the detections
    inserted for it: along every run of single and batch POSTs in which no
    handler is left by an exception, the device keeps its record, id and
    name, and its counter (read as 0 when it was never set) has grown by
    exactly the number of detections that the run inserted with its device
    id. *)
Theorem counter_counts_inserted
    (rs : list (Z * Ingest)) (s : State) (d : string) (dev : Device.t) :
  deviceStore s !! d = Some dev →
  completes rs s →
  ∃ dev', deviceStore (run rs s) !! d = Some dev'
    ∧ Device.id dev' = Device.id dev
    ∧ Device.name dev' = Device.name dev
    ∧ counter dev'
      = counter dev
        + Z.of_nat (length (filter (λ x, Detection.deviceId x = d) (inserted_run rs s))).
Proof.
  revert s dev. induction rs as [|[now r] rest IH]; intros s dev Hd Hc; simpl.
  { exists dev. by rewrite Z.add_0_r. }
  destruct Hc as [Hst Hc].
  destruct (ingest_device_record now r s d dev Hd Hst) as (dev1 & Hd1 & Hid1 & Hn1 & _ & Hc1).
  destruct (IH _ dev1 Hd1 Hc) as (dev' & Hd' & Hid' & Hn' & Hc').
  exists dev'. rewrite filter_app, length_app. repeat split; [done|congruence..|lia].
Qed.

Lemma counter_counts_inserted_witness :
  ∃ dev', deviceStore
            (run [(NOW, BatchOf (steady NOW) (batch "cam-1" mixed)); (NOW + 1000, Single post_Tiger)]
                 (registered offline)) !! "cam-1" = Some dev'
    ∧ counter dev' = 7 + 4.
Proof.
  destruct (counter_counts_inserted
              [(NOW, BatchOf (steady NOW) (batch "cam-1" mixed)); (NOW + 1000, Single post_Tiger)]
              (registered offline) "cam-1" (cam1 offline) eq_refl)
    as (dev' & Hd & _ & _ & Hc).
  - vm_compute. split; [discriminate|]. split; [discriminate|exact I].
  - exists dev'. split; [exact Hd|]. rewrite Hc. vm_compute. reflexivity.
Defined.

(** X9: a single-detection POST answered 200 broadcasts exactly when the
    device is registered.  For a registered device the record is updated
    (status online, lastSeen = now, counter + 1, id and name kept) and the one
    record broadcast is the record stored; for a device that is not
    registered nothing is broadcast and the registry is left as it was. *)
Theorem broadcast_iff_registered
    (now : Z) (req : DeviceDetections.Request) (s : State) (d : string) :
  status (DeviceDetections.POST now req s).2 = 200 →
  DeviceDetections.device_id (DeviceDetections.payload req) = Some d →
  let s' := (DeviceDetections.POST now req s).1 in
  match deviceStore s !! d with
  | Some dev =>
      ∃ dev', deviceStore s' !! d = Some dev'
        ∧ broadcasts s' = broadcasts s ++ [dev']
        ∧ Device.status dev' = online
        ∧ Device.lastSeen dev' = Some now
        ∧ counter dev' = counter dev + 1
        ∧ Device.id dev' = Device.id dev
        ∧ Device.name dev' = Device.name dev
  | None => deviceStore s' = deviceStore s ∧ broadcasts s' = broadcasts s
  end.
Proof.
  intros Hst Hd s'. subst s'. revert Hst. unfold DeviceDetections.POST. rewrite Hd.
  destruct (DeviceDetections.authorized req); simpl; [|done].
  destruct (String.eqb_spec d EmptyString); simpl; [done|].
  destruct (truthy (DeviceDetections.class_name _)) as [c|]; [|done].
  destruct (isWildCat c); simpl; [|done].
  destruct (toISOString _) as [iso|]; [|done]. intros _.
  destruct (deviceStore s !! d) as [dev|]; simpl; [|done].
  exists (DeviceDetections.touch now dev). rewrite lookup_insert_eq.
  repeat split. apply counter_single_touch.
Qed.

Lemma broadcast_iff_registered_witness :
  broadcasts (DeviceDetections.POST NOW post_Tiger init).1 = []
  ∧ ∃ dev', broadcasts (DeviceDetections.POST NOW post_Tiger (registered offline)).1
            = [dev']
      ∧ Device.status dev' = online.
Proof.
  split.
  - apply (broadcast_iff_registered NOW post_Tiger init "cam-1" eq_refl eq_refl).
  - destruct (broadcast_iff_registered NOW post_Tiger (registered offline) "cam-1"
                eq_refl eq_refl) as (dev' & _ & Hb & Hs & _).
    exists dev'. split; [exact Hb|exact Hs].
Defined.

(** X10: every batch answered 200 for a registered device marks the device
    as seen, also when no item was accepted: [lastSeen] becomes [now] and the
    counter grows by the reported [count], which is 0 for an empty batch or
    one whose items are all rejected. *)
Theorem batch_marks_device_seen
    (clock : Z → Z) (now : Z) (req : Batch.Request) (s : State) (d : string) (dev : Device.t) :
  status (Batch.POST clock now req s).2 = 200 →
  Batch.device_id (Batch.payload req) = Some d →
  deviceStore s !! d = Some dev →
  ∃ dev' items,
    Batch.detections (Batch.payload req) = Some items
    ∧ count_of (Batch.POST clock now req s).2
      = Some (Z.of_nat (length (filter (λ det, allowed det) items)))
    ∧ deviceStore (Batch.POST clock now req s).1 !! d = Some dev'
    ∧ Device.lastSeen dev' = Some now
    ∧ counter dev'
      = counter dev + Z.of_nat (length (filter (λ det, allowed det) items)).
Proof.
  unfold Batch.POST. intros Hst Hd Hdev. rewrite Hd in *.
  destruct (Batch.authorized req); simpl in *; [|done].
  destruct (String.eqb_spec d EmptyString); simpl in *; [done|].
  destruct (Batch.detections _) as [items|]; [|done].
  destruct (Batch.loop _ _ _ _ _ _ _) as [l a r|l] eqn:Hloop; [|done].
  apply loop_Done in Hloop as (_ & -> & _).
  rewrite Hdev. simpl. rewrite lookup_insert_eq, Z.add_0_l.
  eexists _, items. repeat split. apply counter_batch_touch.
Qed.

Lemma batch_marks_device_seen_witness :
  ∃ dev',
    count_of (Batch.POST (steady NOW) NOW (batch "cam-1" [item 1 "dog" (Some T)]) (registered offline)).2
      = Some 0
    ∧ deviceStore
        (Batch.POST (steady NOW) NOW (batch "cam-1" [item 1 "dog" (Some T)]) (registered offline)).1
        !! "cam-1" = Some dev'
    ∧ Device.lastSeen dev' = Some NOW.
Proof.
  destruct (batch_marks_device_seen (steady NOW) NOW (batch "cam-1" [item 1 "dog" (Some T)])
              (registered offline) "cam-1" (cam1 offline) eq_refl eq_refl eq_refl)
    as (dev' & items & Hi & Hc & Hd & Hl & _).
  exists dev'. injection Hi as <-. split; [exact Hc|]. split; [exact Hd|exact Hl].
Defined.

(** *** Reading the stores *)

(** X11: every detection that [GET /detections] returns is stored, is of an
    allow-listed species and, when a non-empty [device_id] is given, is of
    that device.  Without a [limit] the 50 most recent of the stored
    detections with these properties are returned; a [limit] that is not a
    number returns none; and a [limit] of at least their number returns them
    all, so that then every stored detection with these properties is
    returned. *)
Theorem listing_is_sound (q : Detections.Query) (s : State) :
  let r := Detections.GET q s in
  let matches := listed (Detections.q_device_id q) s in
  (∀ x, x ∈ detections_of r →
     x ∈ all_detections s
     ∧ isWildCat (Detection.className x) = true
     ∧ ∀ dev, Detections.q_device_id q = Some dev → dev ≠ EmptyString →
         Detection.deviceId x = dev)
  ∧ (Detections.q_limit q = None → detections_of r = take 50 matches)
  ∧ (Detections.q_limit q = Some PNaN → detections_of r = [])
  ∧ (∀ n, Detections.q_limit q = Some (PInt n) →
       Z.of_nat (length matches) ≤ n →
       detections_of r = matches
       ∧ ∀ x, x ∈ all_detections s →
           isWildCat (Detection.className x) = true →
           (∀ dev, Detections.q_device_id q = Some dev → dev ≠ EmptyString →
              Detection.deviceId x = dev) →
           x ∈ detections_of r).
Proof.
  intros r matches. subst r.
  unfold Detections.GET, detections_of, json. cbn [body].
  rewrite matching_listed. fold matches.
  split; [|split; [|split]].
  - intros x Hx. eapply elem_of_prefix in Hx; [|apply slice0_prefix].
    apply list_elem_of_filter in Hx as [[? ?] ?]. done.
  - intros ->. simpl default. by rewrite slice0_default_length.
  - by intros ->.
  - intros n -> Hn. simpl default. rewrite slice0_default_length by lia.
    rewrite take_ge by lia. split; [done|].
    intros x Hx Hw Hd. apply list_elem_of_filter. done.
Qed.


(** X13: the species filter holds for the store at all times: after every
    run of single and batch POSTs from the empty state, whatever the requests
    are and however they are answered, every stored detection has an
    allow-listed class name; so the species filter of [GET /detections] hides
    no stored detection, and without [device_id] and with a limit of at least
    the size of the store the whole store is returned. *)
Theorem stored_detections_are_allowed
    (rs : list (Z * Ingest)) (q : Detections.Query) :
  let s := run rs init in
  (∀ x, x ∈ all_detections s → isWildCat (Detection.className x) = true)
  ∧ (Detections.q_device_id q = None → Detections.matching q s = all_detections s)
  ∧ (∀ dev, Detections.q_device_id q = Some dev → dev ≠ EmptyString →
       Detections.matching q s
       = filter (λ x, Detection.deviceId x = dev) (all_detections s))
  ∧ (∀ n, Detections.q_device_id q = None →
       Detections.q_limit q = Some (PInt n) →
       Z.of_nat (length (all_detections s)) ≤ n →
       detections_of (Detections.GET q s) = all_detections s).
Proof.
  intros s.
  assert (only_wild_cats (all_detections s)) as Hw.
  { apply run_only_wild_cats. constructor. }
  assert (Detections.q_device_id q = None →
          Detections.matching q s = all_detections s) as Hall.
  { intros Hq. unfold Detections.matching. rewrite Hq. simpl.
    by apply filter_only_wild_cats. }
  repeat split.
  - intros x Hx. unfold only_wild_cats in Hw. rewrite Forall_forall in Hw. by apply Hw.
  - done.
  - intros dev Hq Hne. unfold Detections.matching.
    rewrite Hq, (truthy_nonempty dev Hne). by rewrite filter_only_wild_cats.
  - intros n Hq Hl Hn. unfold Detections.GET, detections_of, json. cbn [body].
    rewrite Hl, (Hall Hq). simpl default.
    rewrite slice0_default_length by lia. apply take_ge. lia.
Qed.

(** *** The statistics as a whole *)

Lemma length_filter_impl {A} (P Q : A → Prop)
    `{∀ x, Decision (P x)} `{∀ x, Decision (Q x)} (l : list A) :
  (∀ x, P x → Q x) → (length (filter P l) ≤ length (filter Q l))%nat.
Proof.
  intros HPQ. induction l as [|x l IH]; [done|].
  rewrite !filter_cons. destruct (decide (P x)) as [HP|HP].
  - rewrite decide_True by auto. simpl. lia.
  - destruct (decide (Q x)); simpl; lia.
Qed.

(** X14: the counts of the statistics fit together: the devices online are
    among the devices of the registry, whose number is [totalDevices]; and the
    detections of the last 24 hours are among those of the last week, which
    are among the stored detections. *)
Theorem stats_counts_are_nested (getHours : Z → Z) (now : Z) (s : State) :
  let st := Stats.stats getHours now s in
  0 ≤ DashboardStats.onlineDevices st ≤ DashboardStats.totalDevices st
  ∧ DashboardStats.totalDevices st = Z.of_nat (size (deviceStore s))
  ∧ 0 ≤ DashboardStats.totalDetections24h st
      ≤ DashboardStats.totalDetectionsWeek st
  ∧ DashboardStats.totalDetectionsWeek st ≤ Z.of_nat (length (all_detections s)).
Proof.
  unfold Stats.stats. simpl.
  set (held := filter (λ d, isWildCat (Detection.className d)) (all_detections s)).
  pose proof (length_filter (λ d, Stats.is_online now d) (map_to_list (deviceStore s)).*2).
  pose proof (length_filter (λ d, isWildCat (Detection.className d)) (all_detections s)).
  pose proof (length_filter
                (λ d, gt_num (getTime (Detection.timestamp d))
                             (now - 7 * 24 * 60 * 60 * 1000)) held).
  pose proof (length_filter_impl
                (λ d, gt_num (getTime (Detection.timestamp d)) (now - 24 * 60 * 60 * 1000))
                (λ d, gt_num (getTime (Detection.timestamp d))
                             (now - 7 * 24 * 60 * 60 * 1000)) held) as Hn.
  fold held in H0.
  rewrite length_fmap, length_map_to_list in *.
  repeat split; try lia.
  apply inj_le, Hn. intros x. rewrite !gt_num_spec.
  intros (t & Ht & Hlt). exists t. split; [done|lia].
Qed.

Ltac stamps :=
  unfold stamped_in, stamped_after in *;
  repeat match goal with H : ∃ _, _ |- _ => destruct H as (? & ? & ?) end;
  simplify_eq;
  repeat match goal with
    | E : Detection.timestamp ?x = Some ?t,
      H : ¬ (∃ t, Detection.timestamp ?x = Some t ∧ @?P t) |- _ =>
        assert (¬ P t) by (intros ?; apply H; exists t; by split); clear H
    end;
  simpl in *; lia.

Lemma stamped_in_split lo mid hi l :
  lo ≤ mid ≤ hi →
  (length (filter (stamped_in lo mid) l) + length (filter (stamped_in mid hi) l)
   = length (filter (stamped_in lo hi) l))%nat.
Proof.
  intros Hm. induction l as [|x l IH]; [done|].
  rewrite !filter_cons.
  destruct (decide (stamped_in lo mid x)); destruct (decide (stamped_in mid hi x));
    destruct (decide (stamped_in lo hi x)); simpl; try lia; exfalso; stamps.
Qed.

Lemma stamped_from lo hi l :
  lo ≤ hi →
  (length (filter (stamped_in lo hi) l) + length (filter (stamped_after (hi - 1)) l)
   = length (filter (stamped_after (lo - 1)) l))%nat.
Proof.
  intros Hm. induction l as [|x l IH]; [done|].
  rewrite !filter_cons.
  destruct (decide (stamped_in lo hi x)); destruct (decide (stamped_after (hi - 1) x));
    destruct (decide (stamped_after (lo - 1) x)); simpl; try lia; exfalso; stamps.
Qed.

Lemma hourly_total getHours now detections (n : nat) :
  total (HourBucket.count <$> (Stats.hourBucket getHours now detections <$> Stats.countdown n))
  = Z.of_nat (length (filter (stamped_in (now - (Z.of_nat n + 1) * 3600000) now)
                             detections)).
Proof.
  assert (∀ i rest,
            total (HourBucket.count <$>
                     (Stats.hourBucket getHours now detections <$> i :: rest))
            = HourBucket.count (bucket_of getHours now detections i)
              + total (HourBucket.count <$>
                         (Stats.hourBucket getHours now detections <$> rest))) as Hc.
  { intros i rest. rewrite !fmap_cons, hourBucket_spec. reflexivity. }
  induction n as [|n IH].
  - change (Stats.countdown 0) with [0]. rewrite Hc. unfold bucket_of.
    cbn [HourBucket.count fmap list_fmap total foldr].
    rewrite Z.add_0_r. replace (now - 0 * 3600000) with now by lia. reflexivity.
  - change (Stats.countdown (S n)) with (Z.of_nat (S n) :: Stats.countdown n).
    rewrite Hc, IH. unfold bucket_of. cbn [HourBucket.count].
    rewrite <- (stamped_in_split (now - (Z.of_nat (S n) + 1) * 3600000)
                  (now - (Z.of_nat n + 1) * 3600000) now detections) by lia.
    replace (now - Z.of_nat (S n) * 3600000)
      with (now - (Z.of_nat n + 1) * 3600000) by lia.
    by rewrite Nat2Z.inj_add.
Qed.

(** X15: the 24 hourly buckets cut the day before [now] into disjoint
    hours: their counts add up to the number of (allow-listed) stored
    detections stamped in [[now - 24 h, now)].  This differs from
    [totalDetections24h], which counts the timestamps after [now - 24 h]
    without an upper end, by the detections stamped at [now] or later and by
    those stamped exactly 24 hours ago. *)
Theorem hourly_counts_partition_the_day (getHours : Z → Z) (now : Z) (s : State) :
  let st := Stats.stats getHours now s in
  let held := filter (λ d, isWildCat (Detection.className d)) (all_detections s) in
  let hourly := total (HourBucket.count <$> DashboardStats.hourlyDetections st) in
  hourly = Z.of_nat (length (filter (stamped_in (now - 86400000) now) held))
  ∧ hourly + Z.of_nat (length (filter (stamped_after (now - 1)) held))
    = DashboardStats.totalDetections24h st
      + Z.of_nat (length (filter (stamped_in (now - 86400000) (now - 86400000 + 1)) held)).
Proof.
  intros st held hourly.
  assert (hourly = Z.of_nat (length (filter (stamped_in (now - 86400000) now) held))) as E.
  { subst hourly st. unfold Stats.stats. cbn [DashboardStats.hourlyDetections].
    rewrite hourly_total. do 3 f_equal. }
  split; [done|]. rewrite E.
  assert (DashboardStats.totalDetections24h st
          = Z.of_nat (length (filter (stamped_after (now - 86400000)) held))) as ->.
  { subst st. unfold Stats.stats. cbn [DashboardStats.totalDetections24h].
    do 2 f_equal. apply list_filter_iff. intros x.
    replace (now - 24 * 60 * 60 * 1000) with (now - 86400000) by lia.
    apply gt_num_spec. }
  pose proof (stamped_from (now - 86400000) now held) as H1.
  pose proof (stamped_from (now - 86400000) (now - 86400000 + 1) held) as H2.
  replace (now - 86400000 + 1 - 1) with (now - 86400000) in H2 by lia.
  lia.
Qed.

Lemma total_perm l1 l2 : l1 ≡ₚ l2 → total l1 = total l2.
Proof. induction 1; simpl; lia. Qed.

Lemma set_total o k :
  total (Stats.set o k (or_number (Stats.get o k) 0 + 1)).*2 = total o.*2 + 1.
Proof.
  induction o as [|[k' v] o IH]; [done|].
  cbn [Stats.set Stats.get]. destruct (String.eqb_spec k' k) as [->|Hne].
  - rewrite or_number_Some_0, !fmap_cons. unfold total. simpl. lia.
  - rewrite !fmap_cons. unfold total in *. simpl in *. lia.
Qed.

Lemma classDistribution_total l :
  total (Stats.classDistribution l).*2 = Z.of_nat (length l).
Proof.
  unfold Stats.classDistribution.
  assert (∀ o, total (fold_left
                 (λ o d, Stats.set o (Detection.className d)
                           (or_number (Stats.get o (Detection.className d)) 0 + 1))
                 l o).*2 = total o.*2 + Z.of_nat (length l)) as H.
  { induction l as [|d l IH]; intros o; simpl fold_left; [simpl; lia|].
    rewrite IH, set_total. simpl length. lia. }
  by rewrite H.
Qed.

(** X16: the counts of [classDistribution] add up to [totalDetections24h]:
    every detection of the last 24 hours is counted under exactly one class
    name. *)
Theorem class_distribution_adds_up (getHours : Z → Z) (now : Z) (s : State) :
  let st := Stats.stats getHours now s in
  total (DashboardStats.classDistribution st).*2 = DashboardStats.totalDetections24h st.
Proof.
  unfold Stats.stats. cbn [DashboardStats.classDistribution DashboardStats.totalDetections24h].
  rewrite (total_perm _ _ (fmap_Permutation snd _ _ (sort_entries_perm _))).
  apply classDistribution_total.
Qed.

(** *** The species predicate *)

Lemma lower_ascii_idem c : lower_ascii (lower_ascii c) = lower_ascii c.
Proof. by destruct c as [[] [] [] [] [] [] [] []]. Qed.

Lemma toLowerCase_idem s : toLowerCase (toLowerCase s) = toLowerCase s.
Proof. induction s as [|c s IH]; simpl; [done|]. by rewrite lower_ascii_idem, IH. Qed.

(** X17: the species predicate looks at the lower-case form only: a class
    name is accepted exactly when its lower-case form is, two names with the
    same lower-case form are accepted or rejected together, and every entry
    of the allow-list is itself in lower case, so that each of the nine names
    can be matched. *)
Theorem species_match_ignores_case (a b : string) :
  isWildCat (toLowerCase a) = isWildCat a
  ∧ (toLowerCase a = toLowerCase b → isWildCat a = isWildCat b)
  ∧ (isWildCat a = true ↔ ∃ n, n ∈ WILD_CAT_SPECIES ∧ toLowerCase a = toLowerCase n)
  ∧ Forall (λ n, toLowerCase n = n ∧ isWildCat n = true) WILD_CAT_SPECIES.
Proof.
  assert (Forall (λ n, toLowerCase n = n ∧ isWildCat n = true) WILD_CAT_SPECIES) as Hl.
  { repeat constructor. }
  repeat split; [| | | |done].
  - unfold isWildCat. by rewrite toLowerCase_idem.
  - unfold isWildCat. by intros ->.
  - unfold isWildCat. rewrite bool_decide_eq_true. intros H.
    exists (toLowerCase a). split; [done|]. by rewrite toLowerCase_idem.
  - unfold isWildCat. rewrite bool_decide_eq_true. intros (n & Hn & ->).
    rewrite Forall_forall in Hl. by rewrite (proj1 (Hl n Hn)).
Qed.

(** *** The system health panel *)

Lemma status_counts devices :
  SystemHealth.onlineCount devices + SystemHealth.totalIssues devices
  = Z.of_nat (length devices).
Proof.
  unfold SystemHealth.onlineCount, SystemHealth.totalIssues,
    SystemHealth.offlineDevices, SystemHealth.errorDevices.
  induction devices as [|d l IH]; [done|].
  rewrite !filter_cons. destruct (Device.status d) eqn:E;
    repeat (rewrite decide_True by done || rewrite decide_False by done);
    simpl length; lia.
Qed.

Lemma no_issues_all_online devices :
  SystemHealth.totalIssues devices = 0 ↔ Forall (λ d, Device.status d = online) devices.
Proof.
  unfold SystemHealth.totalIssues, SystemHealth.offlineDevices, SystemHealth.errorDevices.
  induction devices as [|d l IH]; [by split; [constructor|]|].
  rewrite !filter_cons, Forall_cons. destruct (Device.status d) eqn:E;
    repeat (rewrite decide_True by done || rewrite decide_False by done).
  - rewrite <- IH. by split; [|intros [_ ?]].
  - simpl length. split; [lia|by intros [? _]].
  - simpl length. split; [lia|by intros [? _]].
Qed.

(** X18: the health panel: every device is counted as online or as an
    issue (offline or error); the health score is 100 minus 15 per issue, never
    below 0, so it lies between 0 and 100, is 100 exactly when there is no
    issue and 0 exactly from 7 issues on; the status reads Operational exactly
    when all devices are online, Degraded for one or two issues and Critical
    from three issues on. *)
Theorem system_health_panel (devices : list Device.t) :
  let n := SystemHealth.totalIssues devices in
  SystemHealth.onlineCount devices + n = Z.of_nat (length devices)
  ∧ 0 ≤ n
  ∧ 0 ≤ SystemHealth.healthScore devices ≤ 100
  ∧ (SystemHealth.healthScore devices = 100 ↔ n = 0)
  ∧ (SystemHealth.healthScore devices = 0 ↔ 7 ≤ n)
  ∧ (SystemHealth.statusText devices = "Operational"
     ↔ Forall (λ d, Device.status d = online) devices)
  ∧ (SystemHealth.statusText devices = "Degraded" ↔ 1 ≤ n ≤ 2)
  ∧ (SystemHealth.statusText devices = "Critical" ↔ 3 ≤ n).
Proof.
  intros n.
  assert (0 ≤ n) as Hn by (subst n; unfold SystemHealth.totalIssues; lia).
  split; [apply status_counts|]. split; [done|].
  unfold SystemHealth.healthScore, SystemHealth.statusText. fold n.
  rewrite <- no_issues_all_online. fold n.
  destruct (Z.ltb_spec 0 n); destruct (Z.leb_spec n 2); destruct (Z.ltb_spec 2 n);
    simpl; repeat split; intros; try done; try lia.
Qed.

(** *** The class buttons of the detection list *)

Lemma set_keys_add o k v : (Stats.set o k v).*1 = EnhancedDetectionList.add o.*1 k.
Proof.
  unfold EnhancedDetectionList.add. case_bool_decide as Hk.
  - by apply set_keys.
  - rewrite set_new by done. by rewrite fmap_app.
Qed.

Lemma uniqueClasses_keys detections :
  EnhancedDetectionList.uniqueClasses detections
  = (Stats.classDistribution detections).*1.
Proof.
  unfold EnhancedDetectionList.uniqueClasses, Stats.classDistribution.
  assert (∀ o, fold_left EnhancedDetectionList.add (Detection.className <$> detections) o.*1
               = (fold_left
                    (λ o d, Stats.set o (Detection.className d)
                              (or_number (Stats.get o (Detection.className d)) 0 + 1))
                    detections o).*1) as H.
  { induction detections as [|d l IH]; intros o; [done|].
    rewrite fmap_cons. cbn [fold_left]. by rewrite <- IH, set_keys_add. }
  apply (H []).
Qed.

(** X19: the class buttons of the detection list: [uniqueClasses] holds
    every class name of the listed detections once, in the order in which the
    names first occur; for detections of allow-listed species, which is what
    the listing route serves, these are also the keys of the frequency table
    that the statistics build from the same detections, in the same order;
    and at most five buttons, the first five names, are shown. *)
Theorem unique_classes_in_first_seen_order (detections : list Detection.t) :
  let names := Detection.className <$> detections in
  let unique := EnhancedDetectionList.uniqueClasses detections in
  NoDup unique
  ∧ (∀ c, c ∈ unique ↔ c ∈ names)
  ∧ (∀ c1 c2, [c1; c2] `sublist_of` unique →
       ∃ pre post, names = pre ++ c1 :: post ∧ c2 ∉ pre)
  ∧ (only_wild_cats detections →
     unique = (Stats.classDistribution detections).*1)
  ∧ EnhancedDetectionList.classButtons detections = take 5 unique
  ∧ (length (EnhancedDetectionList.classButtons detections) ≤ 5)%nat.
Proof.
  intros names unique. subst unique. rewrite uniqueClasses_keys.
  destruct (classDistribution_tallied detections) as [Hnd Hkeys _ Horder].
  repeat split; try done.
  - by apply Hkeys.
  - by apply Hkeys.
  - unfold EnhancedDetectionList.classButtons. by rewrite uniqueClasses_keys.
  - unfold EnhancedDetectionList.classButtons. rewrite length_take. lia.
Qed.

Lemma unique_classes_in_first_seen_order_witness :
  only_wild_cats [sighting "tiger"; sighting "Lion"; sighting "tiger"; sighting "lynx"]
  ∧ EnhancedDetectionList.uniqueClasses
      [sighting "tiger"; sighting "Lion"; sighting "tiger"; sighting "lynx"]
    = ["tiger"; "Lion"; "lynx"]
  ∧ (Stats.classDistribution
       [sighting "tiger"; sighting "Lion"; sighting "tiger"; sighting "lynx"]).*1
    = ["tiger"; "Lion"; "lynx"].
Proof.
  assert (only_wild_cats
            [sighting "tiger"; sighting "Lion"; sighting "tiger"; sighting "lynx"]) as Hw.
  { repeat constructor. }
  destruct (unique_classes_in_first_seen_order
              [sighting "tiger"; sighting "Lion"; sighting "tiger"; sighting "lynx"])
    as (_ & _ & _ & H & _).
  split; [exact Hw|]. split; [vm_compute; reflexivity|].
  rewrite <- (H Hw). vm_compute. reflexivity.
Defined.

(** *** Generated detection ids of a batch *)

Lemma fmap_rev {A B} (f : A → B) (l : list A) : f <$> rev l = rev (f <$> l).
Proof.
  induction l as [|x l IH]; [done|]. simpl. by rewrite fmap_app, IH.
Qed.

Lemma detectionsOf_generated_ids clock d nm (k : Z) items :
  Forall (λ det, or_number (Batch.detection_id det) 0 = 0) items →
  Detection.id <$> detectionsOf clock d nm k items
  = (λ i : nat, clock (k + Z.of_nat i) + (k + Z.of_nat i))
      <$> seq 0 (length (filter (λ det, allowed det) items)).
Proof.
  intros Hids. revert k. induction Hids as [|det rest Hdet _ IH]; intros k; [done|].
  rewrite filter_allowed_cons. simpl detectionsOf. unfold allowed at 1.
  destruct (Batch.class_name det) as [cn|]; [|apply IH].
  destruct (isWildCat cn); [|apply IH].
  simpl length. cbn [seq]. rewrite !fmap_cons, <- fmap_S_seq, <- list_fmap_compose.
  f_equal.
  - simpl. rewrite Z.add_0_r. unfold or_number in *.
    destruct (Batch.detection_id det) as [v|]; [|done].
    destruct (Z.eqb_spec v 0); [done|lia].
  - rewrite IH. apply list_fmap_ext. intros ? i _. simpl.
    by replace (k + 1 + Z.of_nat i) with (k + Z.of_nat (S i)) by lia.
Qed.

(** X20: the ids that a batch generates: when no item of an accepted batch
    carries a [detection_id] (or carries 0), the k-th accepted item (counted
    from 0) is stored with the id [Date.now() + k], the clock being read when
    that detection is built; so with at most 1000 accepted items the batch's
    detections, most recent first, have the ids [clock (a - 1) + a - 1] down
    to [clock 0], and these are all different provided the clock does not
    step back while the batch is looped over. *)
Theorem batch_generates_distinct_ids
    (clock : Z → Z) (now : Z) (req : Batch.Request) (s : State) (d : string)
    (items : list Batch.Item) :
  status (Batch.POST clock now req s).2 = 200 →
  Batch.device_id (Batch.payload req) = Some d →
  Batch.detections (Batch.payload req) = Some items →
  Forall (λ det, or_number (Batch.detection_id det) 0 = 0) items →
  let a := length (filter (λ det, allowed det) items) in
  (a ≤ 1000)%nat →
  let ids := Detection.id <$> take a (all_detections (Batch.POST clock now req s).1) in
  ids = rev ((λ i : nat, clock (Z.of_nat i) + Z.of_nat i) <$> seq 0 a)
  ∧ ((∀ i j : nat, (i ≤ j < a)%nat → clock (Z.of_nat i) ≤ clock (Z.of_nat j)) →
     NoDup ids).
Proof.
  intros Hst Hd Hi Hids a Ha ids.
  assert (ids = rev ((λ i : nat, clock (Z.of_nat i) + Z.of_nat i) <$> seq 0 a)) as E.
  { subst ids. revert Hst. unfold Batch.POST. rewrite Hd, Hi.
    destruct (Batch.authorized req); simpl; [|done].
    destruct (String.eqb_spec d EmptyString); simpl; [done|].
    destruct (Batch.loop _ _ _ _ _ _ _) as [l a' r|l] eqn:Hloop; [|done].
    intros _. apply loop_Done in Hloop as (-> & _). simpl.
    rewrite all_detections_insert, truncate_take, take_take.
    assert (length (rev (detectionsOf clock d (displayName (deviceStore s !! d) d) 0 items))
            = a) as Hlen by (rewrite length_rev; apply detectionsOf_length).
    replace (a `min` 1000)%nat with a by lia.
    rewrite take_app_le, take_ge by lia.
    by rewrite fmap_rev, (detectionsOf_generated_ids _ _ _ _ _ Hids). }
  split; [done|]. intros Hmono. rewrite E, <- Permutation_rev.
  apply NoDup_fmap_2_strong; [|apply NoDup_seq].
  intros i j Hi' Hj' Hij. apply elem_of_seq in Hi', Hj'.
  destruct (Nat.lt_trichotomy i j) as [Hlt|[Heq|Hlt]]; [|done|].
  - pose proof (Hmono i j). lia.
  - pose proof (Hmono j i). lia.
Qed.

Lemma batch_generates_distinct_ids_witness :
  Detection.id <$>
    take 2 (all_detections
              (Batch.POST (λ k, NOW + 3 * k) (NOW + 10)
                 (batch "cam-1"
                    [Batch.mkItem None (Some T) (Some "tiger") 0.9%Q None None;
                     Batch.mkItem None (Some T) (Some "dog") 0.9%Q None None;
                     Batch.mkItem (Some 0) (Some T) (Some "lynx") 0.9%Q None None])
                 init).1)
  = [NOW + 4; NOW].
Proof.
  destruct (batch_generates_distinct_ids (λ k, NOW + 3 * k) (NOW + 10)
              (batch "cam-1"
                 [Batch.mkItem None (Some T) (Some "tiger") 0.9%Q None None;
                  Batch.mkItem None (Some T) (Some "dog") 0.9%Q None None;
                  Batch.mkItem (Some 0) (Some T) (Some "lynx") 0.9%Q None None])
              init "cam-1"
              [Batch.mkItem None (Some T) (Some "tiger") 0.9%Q None None;
               Batch.mkItem None (Some T) (Some "dog") 0.9%Q None None;
               Batch.mkItem (Some 0) (Some T) (Some "lynx") 0.9%Q None None]
              eq_refl eq_refl eq_refl) as [E _].
  - repeat constructor.
  - vm_compute. lia.
  - exact E.
Defined.

(** The proviso on the clock is needed: when the clock steps back by one
    millisecond between two detections of a batch, both get the same id. *)
Example clock_stepping_back_repeats_an_id :
  Detection.id <$>
    all_detections
      (Batch.POST (λ k, if k =? 0 then NOW else NOW - 1) NOW
         (batch "cam-1"
            [Batch.mkItem None (Some T) (Some "tiger") 0.9%Q None None;
             Batch.mkItem None (Some T) (Some "lion") 0.9%Q None None])
         init).1
  = [NOW; NOW].
Proof. vm_compute. reflexivity. Qed.
